(** * matrix/utils/os.py: process supervision, process-tree kill, file lock

    A shallow embedding of [src/matrix/utils/os.py].  Python exceptions are
    values of [exn]; effectful functions live in a small state-and-exception
    monad whose state records what the function did to the outside world
    (log lines, console lines, signals, the clock).  Whatever the operating
    system or a third-party library decides (when the child exits, whether a
    lock attempt succeeds, whether a pid still exists) is read from an
    environment record that every theorem quantifies over. *)

From Stdlib Require Import String Ascii ZArith Lia Bool Arith List.
From Stdlib Require Import Decimal DecimalString DecimalZ.
Import ListNotations.
Local Open Scope string_scope.
Local Open Scope list_scope.
Local Open Scope nat_scope.

(** String concatenation, written [+] in the Python source. *)
Infix "+++" := String.append (right associativity, at level 60).

(* ===================================================================== *)
(** ** Python values shared by all functions *)
(* ===================================================================== *)

Module Py.

(** The exception classes the module raises, catches or lets through. *)
Inductive exn_class :=
| ValueError
| OSError
| RuntimeError
| UnboundLocalError
| TimeoutError
| AlreadyLocked        (* portalocker.exceptions.AlreadyLocked *)
| NoSuchProcess        (* psutil.NoSuchProcess *)
| TimeoutExpired       (* psutil.TimeoutExpired *)
| KeyboardInterrupt    (* derives from BaseException only *)
| SystemExit.          (* derives from BaseException only *)

Record exn := mkExn { cls : exn_class; msg : string }.

(** [except Exception] catches everything but the two BaseException-only
    classes. *)
Definition is_Exception (e : exn) : bool :=
  match cls e with
  | KeyboardInterrupt | SystemExit => false
  | _ => true
  end.

(** What running a piece of Python gives: a value, a raised exception, or
    [Hang] when the fuel of an unbounded [while True] ran out (the loop is
    still spinning). *)
Inductive outcome (A : Type) :=
| Ret (a : A)
| Raise (e : exn)
| Hang.
Arguments Ret {A} a.
Arguments Raise {A} e.
Arguments Hang {A}.

(** [str(n)] for an int. *)
Definition str_of_Z (z : Z) : string := NilZero.string_of_int (Z.to_int z).

(** [str(x)] where [x] is an int or [None]. *)
Definition str_of_opt (o : option Z) : string :=
  match o with
  | Some z => str_of_Z z
  | None => "None"
  end.

(** [str.isspace] on one character, for the code points below 256:
    TAB..CR, FS..US, space, NEL and NBSP. *)
Definition isspace (c : ascii) : bool :=
  let n := nat_of_ascii c in
  ((9 <=? n) && (n <=? 13)) || ((28 <=? n) && (n <=? 32))
  || (n =? 133) || (n =? 160).

Fixpoint lstrip (s : string) : string :=
  match s with
  | String c r => if isspace c then lstrip r else s
  | EmptyString => EmptyString
  end.

Fixpoint rstrip (s : string) : string :=
  match s with
  | EmptyString => EmptyString
  | String c r =>
      match rstrip r with
      | EmptyString => if isspace c then EmptyString else String c EmptyString
      | r' => String c r'
      end
  end.

(** [s.strip()] *)
Definition strip (s : string) : string := rstrip (lstrip s).

(** Truthiness of a str: empty is false. *)
Definition nonempty (s : string) : bool :=
  match s with EmptyString => false | _ => true end.

(** ["".join(xs)] *)
Definition join (xs : list string) : string := String.concat "" xs.

(** *** The state-and-exception monad

    [M S A] is a Python computation over outside-world state [S].  The
    state survives a raise, which is what [finally] blocks need. *)
Definition M (S A : Type) : Type := S -> outcome A * S.

Definition ret {S A} (a : A) : M S A := fun s => (Ret a, s).
Definition raise {S A} (e : exn) : M S A := fun s => (Raise e, s).
Definition hang {S A} : M S A := fun s => (Hang, s).

Definition bind {S A B} (m : M S A) (k : A -> M S B) : M S B :=
  fun s =>
    match m s with
    | (Ret a, s1) => k a s1
    | (Raise e, s1) => (Raise e, s1)
    | (Hang, s1) => (Hang, s1)
    end.

(** [try: body / except <classes>: handler e]; [catches e] says whether the
    except clause matches. *)
Definition try_except {S A} (body : M S A) (catches : exn -> bool)
    (handler : exn -> M S A) : M S A :=
  fun s =>
    match body s with
    | (Raise e, s1) => if catches e then handler e s1 else (Raise e, s1)
    | r => r
    end.

(** [try: body / finally: final].  The final block runs after a return and
    after a raise; when it raises itself, its exception replaces whatever
    the body produced. *)
Definition try_finally {S A} (body : M S A) (final : M S unit) : M S A :=
  fun s =>
    match body s with
    | (Hang, s1) => (Hang, s1)
    | (r, s1) =>
        match final s1 with
        | (Ret _, s2) => (r, s2)
        | (Raise e, s2) => (Raise e, s2)
        | (Hang, s2) => (Hang, s2)
        end
    end.

(** [for x in xs: body x] *)
Fixpoint for_each {S A} (xs : list A) (body : A -> M S unit) : M S unit :=
  match xs with
  | [] => ret tt
  | x :: rest => bind (body x) (fun _ => for_each rest body)
  end.

End Py.
Import Py.

Declare Scope py_scope.
Delimit Scope py_scope with py.
Notation "x <- m ;; k" := (bind m (fun x => k))
  (at level 100, m at next level, right associativity) : py_scope.
Notation "m ;; k" := (bind m (fun _ => k))
  (at level 100, right associativity) : py_scope.
Local Open Scope py_scope.

(* ===================================================================== *)
(** ** collections.deque(maxlen=10), the tail buffer of run_and_stream *)
(* ===================================================================== *)

Module Deque.

(** [stdout_buffer: tp.Deque[str] = deque(maxlen=10)] *)
Definition maxlen : nat := 10.

(** [d.append(x)] on a bounded deque: the item goes to the right end and,
    when that makes the deque longer than [maxlen], the leftmost item is
    dropped. *)
Definition append (d : list string) (x : string) : list string :=
  let d' := d ++ [x] in
  if maxlen <? length d' then tl d' else d'.

(** The buffer after appending [lines] one by one to an empty deque. *)
Definition after_appends (lines : list string) : list string :=
  fold_left append lines [].

(** The last [k] items of a list. *)
Definition last_k {A} (k : nat) (l : list A) : list A :=
  skipn (length l - k) l.

End Deque.

(* ===================================================================== *)
(** ** lock_file: bounded-retry exclusive file lock *)
(* ===================================================================== *)

Module Lock.

(** The object [portalocker.Lock(filepath, mode, flags=EXCLUSIVE)]
    evaluates to.  The constructor stores its arguments and nothing more:
    the file is opened and locked only by the object's [acquire] method
    (or by entering it as a context manager), which [lock_file] does not
    call.  [acquired] tells whether the object holds the lock. *)
Record LockHandle := mkHandle {
  filename : string;
  open_mode : string;
  acquired : bool
}.

(** What one evaluation of [portalocker.Lock(...)] does: it returns the
    object, or it raises.  The source's except clause looks for a raise
    of class [AlreadyLocked]; the library's constructor does not raise it
    ([constructor_only] below), the raising case is kept so that the loop
    is modelled for whatever the call does. *)
Inductive attempt :=
| Returns
| Refused (e : exn).

Definition already_locked : exn := mkExn AlreadyLocked "".

(** The environment: whether another process holds the exclusive lock on
    the file while the call runs, and the result of the k-th evaluation of
    [portalocker.Lock(...)], k counted from 0. *)
Record Env := mkEnv {
  held_by_other : bool;
  attempt_at : nat -> attempt
}.

(** The constructor of the library: as it touches neither the file nor
    its lock it returns every time, whoever holds the lock. *)
Definition constructor_only (env : Env) : Prop :=
  forall k, attempt_at env k = Returns.

(** Outside-world state: the clock read by [time.time()], in whole ticks
    of any resolution (the clock moves only while the function sleeps, and
    its arithmetic is exact, where the source adds binary floats), and what
    was done so far. *)
Record State := mkState {
  now : Z;
  attempts : nat;        (* evaluations of portalocker.Lock(...) so far *)
  sleeps : list Z        (* arguments of the time.sleep calls, oldest first *)
}.

Section WithEnv.
Variable env : Env.

(** [portalocker.Lock(filepath, mode, flags=LockFlags.EXCLUSIVE)]: the
    object it builds holds no lock. *)
Definition portalocker_Lock (filepath mode : string) : M State LockHandle :=
  fun s =>
    let s1 := mkState (now s) (S (attempts s)) (sleeps s) in
    match attempt_at env (attempts s) with
    | Returns => (Ret (mkHandle filepath mode false), s1)
    | Refused e => (Raise e, s1)
    end.

(** [time.time()] *)
Definition time_time : M State Z := fun s => (Ret (now s), s).

(** [time.sleep(secs)]: a negative length is a ValueError. *)
Definition time_sleep (secs : Z) : M State unit :=
  fun s =>
    if (secs <? 0)%Z
    then (Raise (mkExn ValueError "sleep length must be non-negative"), s)
    else (Ret tt, mkState (now s + secs) (attempts s) (sleeps s ++ [secs])).

Definition is_AlreadyLocked (e : exn) : bool :=
  match cls e with AlreadyLocked => true | _ => false end.

Definition timeout_error (filepath : string) (timeout : Z) : exn :=
  mkExn TimeoutError
    ("Could not acquire lock for " +++ filepath +++ " within "
       +++ str_of_Z timeout +++ " seconds.").

(** The [while True] loop of [lock_file]; [fuel] bounds the number of
    iterations the model follows. *)
Fixpoint lock_loop (fuel : nat) (filepath mode : string)
    (timeout poll_interval start_time : Z) : M State LockHandle :=
  match fuel with
  | O => hang
  | S fuel' =>
      try_except
        (portalocker_Lock filepath mode)
        is_AlreadyLocked
        (fun _ =>
           t <- time_time ;;
           if (timeout <=? t - start_time)%Z
           then raise (timeout_error filepath timeout)
           else (time_sleep poll_interval ;;
                 lock_loop fuel' filepath mode timeout poll_interval start_time))
  end.

(** [lock_file(filepath, mode, timeout=10, poll_interval=0.1)] *)
Definition lock_file (fuel : nat) (filepath mode : string)
    (timeout poll_interval : Z) : M State LockHandle :=
  start_time <- time_time ;;
  lock_loop fuel filepath mode timeout poll_interval start_time.

End WithEnv.

(** Another process holds the lock for the whole call; free: nobody
    does.  The constructor returns alike. *)
Definition held_elsewhere : Env := mkEnv true (fun _ => Returns).
Definition free : Env := mkEnv false (fun _ => Returns).
Definition start : State := mkState 0 0 [].

End Lock.

(* ===================================================================== *)
(** ** read_stdout_lines: the non-blocking line generator *)
(* ===================================================================== *)

Module StdoutLines.

(** What one turn of the [while True] loop finds: [select] with timeout 0
    reports nothing to read, or the pipe is readable and [readline]
    returns [line] (the empty string at end of stream), or [select] or
    [readline] raises: a ValueError on a closed pipe, a UnicodeDecodeError
    (a ValueError as well) on output that is no UTF-8, an OSError. *)
Inductive turn :=
| NotReady
| Ready (line : string)
| Broken (e : exn).

(** A pipe is the sequence of turns the loop will see. *)
Definition pipe := list turn.

(** The part of [subprocess.Popen] the function looks at: [stdout] is
    [None] unless the child was started with [stdout=subprocess.PIPE]. *)
Record Popen := mkPopen { stdout : option pipe }.

(** The strings [readline] returns along a pipe. *)
Fixpoint reads (p : pipe) : list string :=
  match p with
  | [] => []
  | Ready line :: rest => line :: reads rest
  | _ :: rest => reads rest
  end.

(** No turn of the pipe raises. *)
Definition unbroken (p : pipe) : bool :=
  forallb (fun t => match t with Broken _ => false | _ => true end) p.

(** The loop of the generator: the values it yields, in order, and how it
    ends ([Ret tt]: the generator is exhausted; [Raise e]: [select] or
    [readline] raised [e], which nothing in the function catches; [Hang]:
    it is still polling when the known turns run out). *)
Fixpoint poll_loop (p : pipe) : list string * outcome unit :=
  match p with
  | [] => ([], Hang)
  | NotReady :: rest => poll_loop rest
  | Ready output_line :: rest =>
      if nonempty output_line
      then let (ys, o) := poll_loop rest in (strip output_line :: ys, o)
      else ([], Ret tt)
  | Broken e :: _ => ([], Raise e)
  end.

Definition not_a_pipe : exn :=
  mkExn ValueError
    "Ensure stdout=subprocess.PIPE and text=True are set in Popen.".

(** [read_stdout_lines(proc)], run to the end by its consumer. *)
Definition read_stdout_lines (proc : Popen) : list string * outcome unit :=
  match stdout proc with
  | None => ([], Raise not_a_pipe)
  | Some p => poll_loop p
  end.

(** A sample pipe: two lines with idle turns between them, then end of
    stream. *)
Definition two_line_pipe : pipe :=
  [NotReady; Ready "  step 1 
"; NotReady; NotReady; Ready "done
"; Ready ""].

(** What [select] raises on a pipe that was closed. *)
Definition closed_file : exn :=
  mkExn ValueError "I/O operation on closed file".

(** A pipe that was closed before the first turn. *)
Definition closed_pipe : pipe := [Broken closed_file].

End StdoutLines.

(* ===================================================================== *)
(** ** kill_proc_tree: kill a process and all its descendants *)
(* ===================================================================== *)

Module ProcTree.

(** One row of the operating system's process table. *)
Record proc := mkProc { pid : Z; ppid : Z }.

(** What the operating system decides while the function runs. *)
Record Env := mkEnv {
  (* the process exits and is reaped after it was enumerated and before
     its signal is sent *)
  exits_early : Z -> bool;
  (* the process is still there when the 5 second wait after SIGKILL ends *)
  lingers : Z -> bool
}.

Record State := mkState {
  table : list proc;        (* the live processes *)
  killed : list Z;          (* pids sent SIGKILL, oldest first *)
  printed : list (list Z)   (* what print() was given *)
}.

Definition alive (p : Z) (s : State) : bool :=
  existsb (fun r => (pid r =? p)%Z) (table s).

Definition remove (p : Z) (t : list proc) : list proc :=
  filter (fun r => negb (pid r =? p)%Z) t.

Definition no_such_process (p : Z) : exn :=
  mkExn NoSuchProcess ("process no longer exists (pid=" +++ str_of_Z p +++ ")").

Definition timeout_expired (p : Z) : exn :=
  mkExn TimeoutExpired ("timeout after 5 seconds (pid=" +++ str_of_Z p +++ ")").

(** The live processes below [p] in the table, to depth [depth]: every
    child is followed by its own descendants.  psutil lists the same
    processes, the direct children first. *)
Fixpoint descendants (depth : nat) (t : list proc) (p : Z) : list Z :=
  match depth with
  | O => []
  | S d =>
      flat_map (fun r => pid r :: descendants d t (pid r))
               (filter (fun r => (ppid r =? p)%Z) t)
  end.

Section WithEnv.
Variable env : Env.

(** [psutil.Process(pid)]: NoSuchProcess when no process has that pid. *)
Definition Process (p : Z) : M State Z :=
  fun s => if alive p s then (Ret p, s) else (Raise (no_such_process p), s).

(** [parent.children(recursive=True)] *)
Definition children_recursive (parent : Z) : M State (list Z) :=
  fun s => (Ret (descendants (length (table s)) (table s) parent), s).

Definition print (ps : list Z) : M State unit :=
  fun s => (Ret tt, mkState (table s) (killed s) (printed s ++ [ps])).

(** [p.kill()]: SIGKILL, or NoSuchProcess when the process is gone. *)
Definition kill (p : Z) : M State unit :=
  fun s =>
    if alive p s && negb (exits_early env p)
    then (Ret tt, mkState (table s) (killed s ++ [p]) (printed s))
    else (Raise (no_such_process p),
          mkState (remove p (table s)) (killed s) (printed s)).

(** [psutil.wait_procs(procs, timeout=5)]: waits, never raises, and
    returns the processes that went and those still alive. *)
Definition wait_procs (procs : list Z) : M State (list Z * list Z) :=
  fun s =>
    let gone := filter (fun p => negb (lingers env p)) procs in
    let still_alive := filter (lingers env) procs in
    (Ret (gone, still_alive),
     mkState (fold_right remove (table s) gone) (killed s) (printed s)).

(** [p.wait(5)]: TimeoutExpired when the process outlives the wait. *)
Definition wait (p : Z) : M State unit :=
  fun s =>
    if alive p s && lingers env p
    then (Raise (timeout_expired p), s)
    else (Ret tt, mkState (remove p (table s)) (killed s) (printed s)).

(** [kill_proc_tree(pid, including_parent=True)] *)
Definition kill_proc_tree (pid : Z) (including_parent : bool) : M State unit :=
  parent <- Process pid ;;
  children <- children_recursive parent ;;
  print children ;;
  for_each children kill ;;
  _ <- wait_procs children ;;
  if including_parent
  then (kill parent ;; wait parent)
  else ret tt.

End WithEnv.

(** Nothing exits on its own and SIGKILL works at once. *)
Definition calm : Env := mkEnv (fun _ => false) (fun _ => false).

(** Process 101 exits right after it was enumerated. *)
Definition child_101_exits : Env :=
  mkEnv (fun p => (p =? 101)%Z) (fun _ => false).

(** A shell (100) with two children, one of which has a child. *)
Definition small_tree : State :=
  mkState [mkProc 100 1; mkProc 101 100; mkProc 102 100; mkProc 103 102]
          [] [].

Definition empty_table : State := mkState [] [] [].

End ProcTree.

(* ===================================================================== *)
(** ** run_and_stream and stop_process: the streaming process runner *)
(* ===================================================================== *)

Module Runner.

Inductive signal := SIGTERM | SIGKILL.

(** The child process, as far as the runner can observe it. *)
Record Child := mkChild {
  child_pid : Z;
  output : list string;
    (* the lines it writes to stdout and stderr, in order *)
  lifetime : nat;
    (* how many times process.poll() in the calling thread still finds it
       running *)
  exit_status : Z;
    (* the code it exits with when left alone *)
  on_sigterm : option Z
    (* the return code after SIGTERM reached its group; None when it
       ignores SIGTERM, so that process.wait() does not return *)
}.

(** What one turn of the worker's loop finds: nothing to read within the
    0.1 s select, a readable pipe, or a select that raises, before
    anything is taken from the pipe. *)
Inductive tick :=
| Idle
| Readable
| Fails (e : exn).

(** The arguments that are not plain data, and what the operating system
    and the scheduler decide. *)
Record Env := mkEnv {
  remote : bool;
    (* logging_config.get("remote", False) *)
  logger : string -> option exn;
    (* the logging sink: None when it takes the line, Some e when the call
       raises e *)
  spawn_error : option exn;
    (* subprocess.Popen fails with this exception *)
  child : Child;
  interrupt : nat -> option exn;
    (* the exception, if any, that ends the k-th time.sleep(1) of the
       calling thread: KeyboardInterrupt, or whatever a signal handler
       raises *)
  worker_ticks : list tick;
    (* the turns of the worker's loop, until its loop test fails *)
  appends_seen : nat;
    (* how many appends the worker has made when the calling thread
       evaluates "".join(stdout_buffer) *)
  reaped_early : bool
    (* the child has exited and the worker's first process.poll() has
       collected it before the calling thread evaluates os.getpgid(pid);
       this can only happen to a child that no poll of the calling thread
       finds running *)
}.

Record State := mkState {
  logged : list string;
    (* lines this thread has passed to the logging sink, oldest first;
       once the worker is started the sink also receives the worker's
       lines, which are kept in the worker's own run, [worker_end] *)
  printed : list string;
    (* lines written by print() *)
  returncode : option Z;
    (* process.returncode: None until the exit is seen *)
  polls : nat;
    (* times process.poll() found the child running *)
  naps : nat;
    (* time.sleep(1) calls made so far *)
  signalled : list (Z * signal);
    (* os.killpg calls: group and signal *)
  terminate_flag : bool;
    (* the threading.Event *)
  stdout_content : option string;
    (* the local variable; None while unbound *)
  pipe : list string;
    (* lines of the child not yet read from the pipe *)
  stdout_buffer : list string;
    (* the deque *)
  appended : list string;
    (* every line ever appended to the deque *)
  pipe_closed : bool
    (* process.stdout.close() was called *)
}.

(** Field updates. *)
Definition set_logged (v : list string) (s : State) : State :=
  mkState v (printed s) (returncode s) (polls s) (naps s) (signalled s)
    (terminate_flag s) (stdout_content s) (pipe s) (stdout_buffer s)
    (appended s) (pipe_closed s).
Definition set_printed (v : list string) (s : State) : State :=
  mkState (logged s) v (returncode s) (polls s) (naps s) (signalled s)
    (terminate_flag s) (stdout_content s) (pipe s) (stdout_buffer s)
    (appended s) (pipe_closed s).
Definition set_returncode (v : option Z) (s : State) : State :=
  mkState (logged s) (printed s) v (polls s) (naps s) (signalled s)
    (terminate_flag s) (stdout_content s) (pipe s) (stdout_buffer s)
    (appended s) (pipe_closed s).
Definition set_polls (v : nat) (s : State) : State :=
  mkState (logged s) (printed s) (returncode s) v (naps s) (signalled s)
    (terminate_flag s) (stdout_content s) (pipe s) (stdout_buffer s)
    (appended s) (pipe_closed s).
Definition set_naps (v : nat) (s : State) : State :=
  mkState (logged s) (printed s) (returncode s) (polls s) v (signalled
    s) (terminate_flag s) (stdout_content s) (pipe s) (stdout_buffer s)
    (appended s) (pipe_closed s).
Definition set_signalled (v : list (Z * signal)) (s : State) : State :=
  mkState (logged s) (printed s) (returncode s) (polls s) (naps s) v
    (terminate_flag s) (stdout_content s) (pipe s) (stdout_buffer s)
    (appended s) (pipe_closed s).
Definition set_terminate_flag (v : bool) (s : State) : State :=
  mkState (logged s) (printed s) (returncode s) (polls s) (naps s)
    (signalled s) v (stdout_content s) (pipe s) (stdout_buffer s)
    (appended s) (pipe_closed s).
Definition set_stdout_content (v : option string) (s : State) : State :=
  mkState (logged s) (printed s) (returncode s) (polls s) (naps s)
    (signalled s) (terminate_flag s) v (pipe s) (stdout_buffer s)
    (appended s) (pipe_closed s).
Definition set_pipe (v : list string) (s : State) : State :=
  mkState (logged s) (printed s) (returncode s) (polls s) (naps s)
    (signalled s) (terminate_flag s) (stdout_content s) v (stdout_buffer
    s) (appended s) (pipe_closed s).
Definition set_stdout_buffer (v : list string) (s : State) : State :=
  mkState (logged s) (printed s) (returncode s) (polls s) (naps s)
    (signalled s) (terminate_flag s) (stdout_content s) (pipe s) v
    (appended s) (pipe_closed s).
Definition set_appended (v : list string) (s : State) : State :=
  mkState (logged s) (printed s) (returncode s) (polls s) (naps s)
    (signalled s) (terminate_flag s) (stdout_content s) (pipe s)
    (stdout_buffer s) v (pipe_closed s).
Definition set_pipe_closed (v : bool) (s : State) : State :=
  mkState (logged s) (printed s) (returncode s) (polls s) (naps s)
    (signalled s) (terminate_flag s) (stdout_content s) (pipe s)
    (stdout_buffer s) (appended s) v.

(** The process object returned by [subprocess.Popen]. *)
Record Popen := mkPopen { pid : Z }.

(** The dict a blocking run returns; an absent key is [None]. *)
Record RunResult := mkResult {
  success : bool;
  exit_code : option Z;
  stdout : string;
  error : option string;
  traceback : option string
}.

Definition class_name (c : exn_class) : string :=
  match c with
  | ValueError => "ValueError"
  | OSError => "OSError"
  | RuntimeError => "RuntimeError"
  | UnboundLocalError => "UnboundLocalError"
  | TimeoutError => "TimeoutError"
  | AlreadyLocked => "AlreadyLocked"
  | NoSuchProcess => "NoSuchProcess"
  | TimeoutExpired => "TimeoutExpired"
  | KeyboardInterrupt => "KeyboardInterrupt"
  | SystemExit => "SystemExit"
  end.

(** [traceback.format_exc()]: only its last line, the stack lines are
    left out. *)
Definition format_exc (e : exn) : string :=
  class_name (cls e) +++ ": " +++ msg e.

(** Reading a local variable that no assignment has bound yet. *)
Definition unbound_local (name : string) : exn :=
  mkExn UnboundLocalError
    ("cannot access local variable '" +++ name
       +++ "' where it is not associated with a value").

(** The state at the call. *)
Definition fresh : State :=
  mkState [] [] None 0 0 [] false None [] [] [] false.

Section WithEnv.
Variable env : Env.

(** The closure [log]: with a remote logger the line is prefixed with the
    pid, which is still [None] at the first call. *)
Definition log (pid : option Z) (str : string) : M State unit :=
  fun s =>
    let line := if remote env then "[" +++ str_of_opt pid +++ "]" +++ str
                else str in
    match logger env line with
    | Some e => (Raise e, s)
    | None => (Ret tt, set_logged (logged s ++ [line]) s)
    end.

Definition print (line : string) : M State unit :=
  fun s => (Ret tt, set_printed (printed s ++ [line]) s).

(** [subprocess.Popen(command, shell=True, stdout=PIPE, stderr=STDOUT,
    text=True, preexec_fn=os.setsid)]: a new child whose output is waiting
    in the pipe. *)
Definition subprocess_Popen (command : string) : M State Popen :=
  fun s =>
    match spawn_error env with
    | Some e => (Raise e, s)
    | None =>
        (Ret (mkPopen (child_pid (child env))),
         set_pipe (output (child env))
           (set_pipe_closed false (set_polls 0 (set_returncode None s))))
    end.

(** The group of a child that is still there: the child called
    [os.setsid], so it leads a group of its own whose id is its pid. *)
Definition os_getpgid (p : Z) : Z := p.

(** The child has exited and has been collected by the worker when the
    calling thread comes to the group line. *)
Definition reaped_at_launch : bool :=
  reaped_early env && (lifetime (child env) =? 0).

(** [output_thread.start()]: the worker, [stream_output], now runs beside
    this thread.  Its loop test [process.poll()] collects a child that has
    exited and stores the return code in the process object both threads
    share. *)
Definition output_thread_start : M State unit :=
  fun s =>
    (Ret tt,
     if reaped_at_launch
     then set_returncode (Some (exit_status (child env))) s
     else s).

(** ProcessLookupError, an OSError. *)
Definition process_lookup_error : exn :=
  mkExn OSError "[Errno 3] No such process".

(** The call [os.getpgid(pid)] of the group line: once the child has been
    collected its pid names no process, and the call raises. *)
Definition getpgid (p : Z) : M State Z :=
  fun s =>
    match returncode s with
    | Some _ => (Raise process_lookup_error, s)
    | None => (Ret (os_getpgid p), s)
    end.

(** [process.poll()] in the calling thread. *)
Definition poll : M State (option Z) :=
  fun s =>
    match returncode s with
    | Some c => (Ret (Some c), s)
    | None =>
        if polls s <? lifetime (child env)
        then (Ret None, set_polls (S (polls s)) s)
        else (Ret (Some (exit_status (child env))),
              set_returncode (Some (exit_status (child env))) s)
    end.

(** [time.sleep(1)] in the calling thread. *)
Definition time_sleep : M State unit :=
  fun s =>
    match interrupt env (naps s) with
    | Some e => (Raise e, s)
    | None => (Ret tt, set_naps (S (naps s)) s)
    end.

(** [os.killpg(pgid, sig)] *)
Definition os_killpg (pgid : Z) (sig : signal) : M State unit :=
  fun s => (Ret tt, set_signalled (signalled s ++ [(pgid, sig)]) s).

(** [process.wait()] after the group was signaled. *)
Definition wait : M State Z :=
  fun s =>
    match returncode s with
    | Some c => (Ret c, s)
    | None =>
        match on_sigterm (child env) with
        | Some c => (Ret c, set_returncode (Some c) s)
        | None => (Hang, s)
        end
    end.

(** [stop_process(process)]; a [None] argument is falsy.  The group id
    is asked for right after a poll that found the child running. *)
Definition stop_process (process : option Popen) : M State unit :=
  match process with
  | None => ret tt
  | Some p =>
      rc <- poll ;;
      match rc with
      | None =>
          print "Stopping subprocess..." ;;
          os_killpg (os_getpgid (pid p)) SIGTERM ;;
          _ <- wait ;;
          print "Subprocess stopped."
      | Some _ => ret tt
      end
  end.

(** *** The worker thread *)

(** [process.stdout.readline()]: the next line, or the empty string when
    nothing is left. *)
Definition readline : M State string :=
  fun s =>
    match pipe s with
    | [] => (Ret "", s)
    | line :: rest => (Ret line, set_pipe rest s)
    end.

(** [stdout_buffer.append(line)] *)
Definition buffer_append (line : string) : M State unit :=
  fun s =>
    (Ret tt,
     set_appended (appended s ++ [line])
       (set_stdout_buffer (Deque.append (stdout_buffer s) line) s)).

(** The [while] loop of [stream_output], one [tick] per turn; it ends
    when the ticks run out, that is when the flag is set or the child has
    exited. *)
Fixpoint stream_loop (pid : option Z) (ticks : list tick) : M State unit :=
  match ticks with
  | [] => ret tt
  | Idle :: rest => stream_loop pid rest
  | Readable :: rest =>
      line <- readline ;;
      (if nonempty line
       then (log pid (strip line) ;; buffer_append line)
       else ret tt) ;;
      stream_loop pid rest
  | Fails e :: _ => raise e
  end.

(** [for line in process.stdout: ...] followed by [close()]. *)
Definition drain (pid : option Z) : M State unit :=
  fun s =>
    (for_each (pipe s)
       (fun line =>
          _ <- readline ;;
          buffer_append line ;;
          log pid (strip line)) ;;
     fun s' => (Ret tt, set_pipe_closed true s')) s.

(** [stream_output()], the target of the worker thread. *)
Definition stream_output (pid : option Z) (ticks : list tick) : M State unit :=
  try_finally
    (try_except
       (stream_loop pid ticks)
       is_Exception
       (fun e => log pid ("Error reading subprocess output: " +++ msg e)))
    (drain pid).

(** The worker's whole run, from the state right after the spawn. *)
Definition worker_start : State :=
  set_pipe (output (child env)) fresh.

Definition worker_end : State :=
  snd (stream_output (Some (child_pid (child env))) (worker_ticks env)
         worker_start).

(** The calling thread turns to the deque it shares with the worker: by
    now the worker has made the first [appends_seen] of its appends. *)
Definition observe_worker : M State unit :=
  fun s =>
    let seen := firstn (appends_seen env) (appended worker_end) in
    (Ret tt,
     set_appended seen (set_stdout_buffer (Deque.after_appends seen) s)).

(** *** The calling thread *)

(** The [while True] polling loop of the blocking branch; it returns the
    exit code. *)
Fixpoint wait_loop (fuel : nat) : M State Z :=
  match fuel with
  | O => hang
  | S fuel' =>
      exit_code <- poll ;;
      match exit_code with
      | Some c =>
          print ("Process finished with code " +++ str_of_Z c) ;;
          ret c
      | None => time_sleep ;; wait_loop fuel'
      end
  end.

(** [stdout_content = "".join(stdout_buffer)] *)
Definition assign_stdout_content : M State unit :=
  fun s => (Ret tt, set_stdout_content (Some (join (stdout_buffer s))) s).

(** Reading the local [stdout_content]. *)
Definition load_stdout_content : M State string :=
  fun s =>
    match stdout_content s with
    | Some v => (Ret v, s)
    | None => (Raise (unbound_local "stdout_content"), s)
    end.

(** The [try] block of the blocking branch. *)
Definition blocking_body (fuel : nat) (pid : option Z) : M State RunResult :=
  exit_code <- wait_loop fuel ;;
  log pid ("Process exited with code " +++ str_of_Z exit_code) ;;
  observe_worker ;;
  assign_stdout_content ;;
  content <- load_stdout_content ;;
  ret (mkResult (exit_code =? 0)%Z (Some exit_code) content None None).

(** The [except Exception as e] block. *)
Definition blocking_handler (e : exn) : M State RunResult :=
  content <- load_stdout_content ;;
  ret (mkResult false None content (Some (msg e)) (Some (format_exc e))).

(** The [finally] block. *)
Definition blocking_cleanup (process : Popen) (pid : option Z) : M State unit :=
  (fun s => (Ret tt, set_terminate_flag true s)) ;;
  (* output_thread.join(timeout=1.0): a bounded wait without effect on
     this thread's state *)
  stop_process (Some process) ;;
  log pid "Subprocess killed".

(** The [try] / [except Exception] / [finally] statement of the blocking
    branch. *)
Definition blocking_branch (fuel : nat) (process : Popen) (pid : option Z)
  : M State RunResult :=
  try_finally
    (try_except (blocking_body fuel pid) is_Exception blocking_handler)
    (blocking_cleanup process pid).

(** [run_and_stream(logging_config, command, blocking=False)]: the process
    object when not blocking, the result dict when blocking. *)
Definition run_and_stream (fuel : nat) (command : string) (blocking : bool)
  : M State (Popen + RunResult) :=
  log None ("launch: " +++ command) ;;
  process <- subprocess_Popen command ;;
  let pid := Some (pid process) in
  (fun s =>
     (Ret tt,
      set_stdout_content None
        (set_appended []
           (set_stdout_buffer [] (set_terminate_flag false s))))) ;;
  output_thread_start ;;
  pgid <- getpgid (Runner.pid process) ;;
  log pid ("Launch proces " +++ str_of_opt pid +++ " with group "
             +++ str_of_Z pgid) ;;
  if negb blocking
  then ret (inl process)
  else
    r <- blocking_branch fuel process pid ;;
    ret (inr r).

End WithEnv.

(** The child has neither been seen to exit nor run out of polls: it is
    still running as far as [process.poll()] can tell. *)
Definition still_running (env : Env) (s : State) : bool :=
  match returncode s with
  | Some _ => false
  | None => polls s <? lifetime (child env)
  end.

(** Nothing disturbs the run: the child starts, the sink takes every
    line, no exception is delivered during a sleep. *)
Definition undisturbed (env : Env) : Prop :=
  spawn_error env = None /\
  (forall line, logger env line = None) /\
  (forall k, interrupt env k = None).

(** What the caller finds in the deque when it assembles the result. *)
Definition tail_seen (env : Env) : string :=
  join (Deque.after_appends
          (firstn (appends_seen env) (appended (worker_end env)))).

(** *** Invariant of the deque *)

(** The deque is what the bounded appends make of the history. *)
Definition deque_tracks_history (s : State) : Prop :=
  stdout_buffer s = Deque.after_appends (appended s).

(** A computation that keeps the deque in step with its history, however
    it ends. *)
Definition keeps {A} (m : M State A) : Prop :=
  forall s, deque_tracks_history s -> deque_tracks_history (snd (m s)).

(** *** Sample environments *)

Definition quiet_logger : string -> option exn := fun _ => None.
Definition no_interrupt : nat -> option exn := fun _ => None.

(** The child of [sh -c "echo hello && exit 3"]: one line, exit code 3;
    [polls] is how often the caller finds it still running. *)
Definition echo_hello_exit_3 (polls : nat) : Child :=
  mkChild 4321 ["hello
"] polls 3 (Some (-15)%Z).

(** A child that prints [lines] and exits with [code]. *)
Definition printer (lines : list string) (polls : nat) (code : Z) : Child :=
  mkChild 4321 lines polls code (Some (-15)%Z).

(** Nothing goes wrong around the child [c]; the worker has made [seen]
    appends when the caller reads the deque. *)
Definition calm (c : Child) (seen : nat) : Env :=
  mkEnv false quiet_logger None c no_interrupt [Readable; Idle] seen false.

(** The child [c] exits at once, and the worker has collected it before
    the caller comes to the group line. *)
Definition collected_early (c : Child) : Env :=
  mkEnv false quiet_logger None c no_interrupt [] 0 true.

(** A signal handler raises RuntimeError during the first sleep of the
    wait loop; the child would have run for a long time. *)
Definition alarm_during_first_sleep : Env :=
  mkEnv false quiet_logger None (printer [] 100 0)
        (fun k => if k =? 0 then Some (mkExn RuntimeError "alarm") else None)
        [] 0 false.

(** The logging sink rejects the line that reports the exit code. *)
Definition sink_rejects_exit_line : Env :=
  mkEnv false
        (fun line =>
           if String.eqb line "Process exited with code 0"
           then Some (mkExn OSError "sink closed") else None)
        None (printer [] 1 0) no_interrupt [] 0 false.

End Runner.

(* ===================================================================== *)
(** ** run_subprocess: run a command, report success as a bool *)
(* ===================================================================== *)

Module Subprocess.

(** The environment: what [subprocess.run(command, check=False,
    text=True)] does with a command, raise or give a return code. *)
Record Env := mkEnv { run_outcome : list string -> exn + Z }.

(** Outside-world state: the lines written by [print]. *)
Definition State := list string.

Definition print (line : string) : M State unit :=
  fun s => (Ret tt, s ++ [line]).

Section WithEnv.
Variable env : Env.

(** [subprocess.run(...)] followed by [.returncode]. *)
Definition subprocess_run (command : list string) : M State Z :=
  fun s =>
    match run_outcome env command with
    | inl e => (Raise e, s)
    | inr code => (Ret code, s)
    end.

(** [run_subprocess(command)] *)
Definition run_subprocess (command : list string) : M State bool :=
  print ("Running command: " +++ String.concat " " command) ;;
  try_except
    (returncode <- subprocess_run command ;;
     if (returncode =? 0)%Z
     then ret true
     else (print ("Command failed with return code "
                    +++ str_of_Z returncode) ;;
           ret false))
    is_Exception
    (fun _ => ret false).

End WithEnv.

(** [curl] is missing: [subprocess.run] raises FileNotFoundError, an
    OSError. *)
Definition no_curl : Env :=
  mkEnv (fun _ => inl (mkExn OSError "No such file or directory: 'curl'")).

(** Every command returns code 22. *)
Definition returns_22 : Env := mkEnv (fun _ => inr 22%Z).

End Subprocess.

(* ===================================================================== *)
(** ** find_free_ports: ask the operating system for n distinct ports *)
(* ===================================================================== *)

Module Ports.

(** The environment: what happens in the body of the [with] statement on
    the k-th socket, k counted from 0: [bind], [setsockopt] or
    [getsockname] raises, or the operating system has bound the socket to
    this port. *)
Record Env := mkEnv { socket_at : nat -> exn + Z }.

Record State := mkState {
  opened : nat;    (* sockets created so far *)
  closed : nat     (* sockets closed so far *)
}.

(** [free_ports.add(port)] on a set kept as a list without repetition;
    the order of the list carries no meaning. *)
Definition set_add (port : Z) (free_ports : list Z) : list Z :=
  if existsb (Z.eqb port) free_ports then free_ports
  else free_ports ++ [port].

Section WithEnv.
Variable env : Env.

(** [socket.socket(socket.AF_INET, socket.SOCK_STREAM)] *)
Definition socket_socket : M State nat :=
  fun s => (Ret (opened s), mkState (S (opened s)) (closed s)).

(** [s.close()], called by [closing] when the [with] block is left. *)
Definition close : M State unit :=
  fun s => (Ret tt, mkState (opened s) (S (closed s))).

(** [s.bind(("", 0))], [s.setsockopt(...)] and
    [port = s.getsockname()[1]]. *)
Definition bind_and_read_port (sock : nat) : M State Z :=
  fun s =>
    match socket_at env sock with
    | inl e => (Raise e, s)
    | inr port => (Ret port, s)
    end.

(** The [while len(free_ports) < n] loop. *)
Fixpoint port_loop (fuel : nat) (n : Z) (free_ports : list Z)
  : M State (list Z) :=
  match fuel with
  | O => hang
  | S fuel' =>
      if (Z.of_nat (length free_ports) <? n)%Z
      then
        sock <- socket_socket ;;
        port <- try_finally (bind_and_read_port sock) close ;;
        port_loop fuel' n (set_add port free_ports)
      else ret free_ports
  end.

(** [find_free_ports(n)]; the order of the returned list is that of a
    Python set and is not modelled. *)
Definition find_free_ports (fuel : nat) (n : Z) : M State (list Z) :=
  port_loop fuel n [].

End WithEnv.

(** The operating system hands out 40000, 40001, 40001, 40002, ... *)
Definition one_repeat : Env :=
  mkEnv (fun k => inr (match k with
                       | O => 40000%Z
                       | S O => 40001%Z
                       | S (S k') => (40001 + Z.of_nat k')%Z
                       end)).

(** The second socket cannot be bound. *)
Definition second_bind_fails : Env :=
  mkEnv (fun k => if k =? 1 then inl (mkExn OSError "Address already in use")
                  else inr (40000 + Z.of_nat k)%Z).

Definition none_open : State := mkState 0 0.

End Ports.

(* ===================================================================== *)
(** ** create_symlinks: links to a job's stdout and stderr files *)
(* ===================================================================== *)

Module Symlinks.

(** *** The strings pathlib and int() work on *)

(** Does [c] occur in [s]? *)
Fixpoint has_char (c : ascii) (s : string) : bool :=
  match s with
  | EmptyString => false
  | String a r => Ascii.eqb a c || has_char c r
  end.

(** The part of [s] after the last [c]; [None] when [c] does not occur. *)
Fixpoint after_last (c : ascii) (s : string) : option string :=
  match s with
  | EmptyString => None
  | String a r =>
      match after_last c r with
      | Some t => Some t
      | None => if Ascii.eqb a c then Some r else None
      end
  end.

(** The part of [s] before the last [c]. *)
Fixpoint before_last (c : ascii) (s : string) : option string :=
  match s with
  | EmptyString => None
  | String a r =>
      match before_last c r with
      | Some t => Some (String a t)
      | None => if Ascii.eqb a c then Some EmptyString else None
      end
  end.

(** [s] without its front part [p]; [None] when [s] does not start
    with [p]. *)
Fixpoint strip_prefix (p s : string) : option string :=
  match p, s with
  | EmptyString, _ => Some s
  | String a p', String b s' =>
      if Ascii.eqb a b then strip_prefix p' s' else None
  | String _ _, EmptyString => None
  end.

(** [PurePath.suffix] and [PurePath.stem] of a file name: the name is cut
    at its last dot, unless that dot is its first or its last character. *)
Definition cut_at_last_dot (name : string) : string * string :=
  match before_last "." name, after_last "." name with
  | Some stem, Some ext =>
      if nonempty stem && nonempty ext
      then (stem, String "." ext)
      else (name, EmptyString)
  | _, _ => (name, EmptyString)
  end.

Definition stem (name : string) : string := fst (cut_at_last_dot name).
Definition suffix (name : string) : string := snd (cut_at_last_dot name).

(** [s.split("_")[-1]] *)
Definition last_field (s : string) : string :=
  match after_last "_" s with
  | Some t => t
  | None => s
  end.

(** [int(s)] for a string without underscore, as every field of
    [split("_")] is: surrounding whitespace is dropped, then come an
    optional sign and at least one decimal digit. *)
Definition int_of_field (s : string) : option Z :=
  match strip s with
  | EmptyString => None
  | String sign digits as t =>
      if Ascii.eqb sign "+"
      then option_map Z.of_uint (NilZero.uint_of_string digits)
      else option_map Z.of_int (NilZero.int_of_string t)
  end.



Definition invalid_literal (s : string) : exn :=
  mkExn ValueError ("invalid literal for int() with base 10: '" +++ s +++ "'").

(** *** The directory *)

Inductive entry :=
| Symlink (target : string)
| Other.                    (* a regular file, a directory, ... *)

(** The entries of [destination], by name. *)
Definition directory := list (string * entry).

Definition lookup (name : string) (d : directory) : option entry :=
  option_map snd (find (fun e => String.eqb (fst e) name) d).

Definition without (name : string) (d : directory) : directory :=
  filter (fun e => negb (String.eqb (fst e) name)) d.

(** The characters that keep [job_category] from being a plain front part
    of a file name: the path separator and the glob characters. *)
Definition plain (s : string) : bool :=
  negb (has_char "/" s || has_char "*" s || has_char "?" s || has_char "[" s).

(** Does [name] match the pattern [f"{prefix}_*.*"], [prefix] plain? *)
Definition matches (prefix name : string) : bool :=
  match strip_prefix (prefix +++ "_") name with
  | Some rest => has_char "." rest
  | None => false
  end.

Definition file_exists (name : string) : exn :=
  mkExn OSError ("[Errno 17] File exists: '" +++ name +++ "'").

(** [path.is_symlink()] *)
Definition is_symlink (name : string) : M directory bool :=
  fun d =>
    (Ret match lookup name d with Some (Symlink _) => true | _ => false end,
     d).

(** [path.unlink()] of an existing entry. *)
Definition unlink (name : string) : M directory unit :=
  fun d => (Ret tt, without name d).

(** [path.symlink_to(target)]: FileExistsError, an OSError, when the name
    is taken. *)
Definition symlink_to (name target : string) : M directory unit :=
  fun d =>
    match lookup name d with
    | Some _ => (Raise (file_exists name), d)
    | None => (Ret tt, d ++ [(name, Symlink target)])
    end.

(** The set comprehension of [get_next_index], over the names of the
    directory: the first field that is no integer raises. *)
Fixpoint indices (prefix : string) (names : list string) : exn + list Z :=
  match names with
  | [] => inr []
  | name :: rest =>
      if matches prefix name
         && (String.eqb (suffix name) ".err" || String.eqb (suffix name) ".out")
      then
        match int_of_field (last_field (stem name)) with
        | None => inl (invalid_literal (last_field (stem name)))
        | Some i =>
            match indices prefix rest with
            | inl e => inl e
            | inr l => inr (i :: l)
            end
        end
      else indices prefix rest
  end.

(** [max(indices, default=-1)]: the default stands in for the maximum of
    an empty collection only; indices below -1 are not raised to it. *)
Definition max_default (l : list Z) : Z :=
  match l with
  | [] => (-1)%Z
  | i :: rest => fold_right Z.max i rest
  end.

(** [get_next_index(directory, prefix)] *)
Definition get_next_index (prefix : string) : M directory Z :=
  fun d =>
    match indices prefix (map fst d) with
    | inl e => (Raise e, d)
    | inr l => (Ret (max_default l + 1)%Z, d)
    end.

(** [remove_existing_symlinks(directory, prefix)] *)
Definition remove_existing_symlinks (prefix : string) : M directory unit :=
  for_each [".err"; ".out"]
    (fun ext =>
       let symlink := prefix +++ ext in
       is_link <- is_symlink symlink ;;
       if is_link then unlink symlink else ret tt).

(** [create_symlinks(destination, job_category, job_paths,
    increment_index)]; [stderr] and [stdout] are the two paths of
    [job_paths]. *)
Definition create_symlinks (job_category stderr stdout : string)
    (increment_index : bool) : M directory unit :=
  job_category <-
    (if increment_index
     then (i <- get_next_index job_category ;;
           ret (job_category +++ "_" +++ str_of_Z i))
     else (remove_existing_symlinks job_category ;; ret job_category)) ;;
  symlink_to (job_category +++ ".err") stderr ;;
  symlink_to (job_category +++ ".out") stdout.

(** *** Sample directories *)



(** A file whose last field is no number. *)
Definition with_stray_file : directory :=
  [("train_0.err", Symlink "/logs/11_0_log.err");
   ("train_final.out", Other)].

(** Links of an earlier run without index, and a file of another kind. *)
Definition linked_once : directory :=
  [("train.err", Symlink "/logs/11_0_log.err");
   ("notes.txt", Other);
   ("train.out", Symlink "/logs/11_0_log.out")].

(** A regular file sits where the stderr link should go. *)
Definition blocked : directory :=
  [("train.err", Other);
   ("train.out", Symlink "/logs/11_0_log.out")].

End Symlinks.

(* ===================================================================== *)
(** ** Further sample environments *)
(* ===================================================================== *)

Module Scenarios.

(** Evaluating [portalocker.Lock(...)] fails with an error that is not
    AlreadyLocked. *)
Definition permission_denied : exn := mkExn OSError "Permission denied".

Definition unreadable : Lock.Env :=
  Lock.mkEnv false (fun _ => Lock.Refused permission_denied).

(** SIGKILL is sent but process 100 is still there 5 seconds later. *)
Definition root_100_lingers : ProcTree.Env :=
  ProcTree.mkEnv (fun _ => false) (fun p => (p =? 100)%Z).

(** A pipe that has delivered two lines and is only idle since. *)
Definition quiet_pipe : StdoutLines.pipe :=
  [StdoutLines.Ready "one
"; StdoutLines.NotReady; StdoutLines.Ready "
";
   StdoutLines.NotReady; StdoutLines.NotReady].

(** The line the logging sink receives for [log(str)]. *)
Definition delivered (env : Runner.Env) (pid : option Z) (str : string)
  : string :=
  if Runner.remote env then "[" +++ str_of_opt pid +++ "]" +++ str else str.

(** The state in which [run_and_stream] reaches the branch on
    [blocking], when the child started and the sink took both lines: the
    launch line is logged, the process object is new, the flag and the
    deque are fresh, the group line is logged. *)
Definition launched (env : Runner.Env) (command : string) (s : Runner.State)
  : Runner.State :=
  let pid := Runner.child_pid (Runner.child env) in
  let s1 :=
    Runner.set_logged
      (Runner.logged s ++ [delivered env None ("launch: " +++ command)]) s in
  let s2 :=
    Runner.set_pipe (Runner.output (Runner.child env))
      (Runner.set_pipe_closed false
         (Runner.set_polls 0 (Runner.set_returncode None s1))) in
  let s3 :=
    Runner.set_stdout_content None
      (Runner.set_appended []
         (Runner.set_stdout_buffer [] (Runner.set_terminate_flag false s2))) in
  Runner.set_logged
    (Runner.logged s3 ++
       [delivered env (Some pid)
          ("Launch proces " +++ str_of_opt (Some pid) +++ " with group "
             +++ str_of_Z (Runner.os_getpgid pid))]) s3.

(** A remote logger, a child that is seen running twice and exits 0. *)
Definition remote_run : Runner.Env :=
  Runner.mkEnv true Runner.quiet_logger None (Runner.printer [] 2 0)
               Runner.no_interrupt [] 0 false.

(** The shell cannot be started. *)
Definition fork_failed : exn := mkExn OSError "Cannot allocate memory".

Definition spawn_fails : Runner.Env :=
  Runner.mkEnv false Runner.quiet_logger (Some fork_failed)
               (Runner.printer [] 2 0) Runner.no_interrupt [] 0 false.

(** Ctrl-C arrives during the second sleep of a long-running child. *)
Definition ctrl_c : exn := mkExn KeyboardInterrupt "".

Definition ctrl_c_in_second_sleep : Runner.Env :=
  Runner.mkEnv false Runner.quiet_logger None (Runner.printer [] 100 0)
               (fun k => if k =? 1 then Some ctrl_c else None) [] 0 false.

(** A long-running child that ignores SIGTERM. *)
Definition deaf_child : Runner.Env :=
  Runner.mkEnv false Runner.quiet_logger None
               (Runner.mkChild 4321 [] 100 0 None)
               Runner.no_interrupt [] 0 false.

(** A child that prints twelve lines; the worker is done when the caller
    reads the deque. *)
Definition twelve_lines : list string :=
  ["1
"; "2
"; "3
"; "4
"; "5
"; "6
"; "7
"; "8
"; "9
"; "10
"; "11
"; "12
"].

Definition chatty : Runner.Env :=
  Runner.calm (Runner.printer twelve_lines 1 0) 12.



End Scenarios.
(* ===================================================================== *)
(** * Properties *)
(* ===================================================================== *)

(** ** The bounded deque *)

Section DequeFacts.
Import Deque.

Lemma append_length d x :
  length d <= maxlen -> length (append d x) <= maxlen.
Proof.
  intros Hd. unfold append. cbv zeta.
  destruct (Nat.ltb_spec maxlen (length (d ++ [x]))) as [Hlt | Hle].
  - destruct (d ++ [x]) as [| y t] eqn:E.
    + simpl. lia.
    + assert (Hl : length (y :: t) = length d + 1)
        by (rewrite <- E, length_app; reflexivity).
      simpl in Hl |- *. lia.
  - exact Hle.
Qed.

Lemma after_appends_snoc lines x :
  after_appends (lines ++ [x]) = append (after_appends lines) x.
Proof. unfold after_appends. rewrite fold_left_app. reflexivity. Qed.

Lemma after_appends_length lines : length (after_appends lines) <= maxlen.
Proof.
  induction lines as [| x lines IH] using rev_ind.
  - unfold maxlen. simpl. lia.
  - rewrite after_appends_snoc. now apply append_length.
Qed.

Lemma tl_skipn {A} (k : nat) (l : list A) : tl (skipn k l) = skipn (S k) l.
Proof.
  revert l. induction k as [| k IH]; intros l.
  - destruct l; reflexivity.
  - destruct l as [| a l]; [reflexivity |].
    change (tl (skipn k l) = skipn (S k) l). apply IH.
Qed.

Lemma append_last_k hist x :
  append (last_k maxlen hist) x = last_k maxlen (hist ++ [x]).
Proof.
  pose proof (eq_refl : maxlen = 10) as Hm.
  unfold append, last_k. cbv zeta.
  rewrite !length_app, length_skipn. simpl length.
  destruct (Nat.ltb_spec maxlen (length hist - (length hist - maxlen) + 1))
    as [Hlt | Hle].
  - assert (Hge : maxlen <= length hist) by lia.
    replace (length hist + 1 - maxlen) with (S (length hist - maxlen)) by lia.
    rewrite (skipn_app (S (length hist - maxlen))).
    replace (S (length hist - maxlen) - length hist) with 0 by lia.
    simpl (skipn 0 [x]).
    rewrite <- tl_skipn.
    assert (Hne : 0 < length (skipn (length hist - maxlen) hist))
      by (rewrite length_skipn; lia).
    destruct (skipn (length hist - maxlen) hist); [simpl in Hne; lia |].
    reflexivity.
  - assert (Hlt : length hist < maxlen) by lia.
    replace (length hist - maxlen) with 0 by lia.
    replace (length hist + 1 - maxlen) with 0 by lia.
    reflexivity.
Qed.

Lemma after_appends_last_k lines : after_appends lines = last_k maxlen lines.
Proof.
  induction lines as [| x lines IH] using rev_ind.
  - reflexivity.
  - rewrite after_appends_snoc, IH. apply append_last_k.
Qed.

End DequeFacts.
(** ** lock_file *)

Section LockFacts.
Import Lock.

Variable env : Env.
Variables filepath mode : string.

(** One refused attempt, then the deadline test. *)
Lemma lock_loop_refused fuel T P start_time s :
  attempt_at env (attempts s) = Refused already_locked ->
  lock_loop env (S fuel) filepath mode T P start_time s =
    let s1 := mkState (now s) (S (attempts s)) (sleeps s) in
    if (T <=? now s - start_time)%Z
    then (Raise (timeout_error filepath T), s1)
    else (time_sleep P ;; lock_loop env fuel filepath mode T P start_time) s1.
Proof.
  intros Hk. cbn [lock_loop]. unfold try_except, portalocker_Lock.
  rewrite Hk. cbn [is_AlreadyLocked already_locked cls].
  unfold bind at 1, time_time. cbn [now].
  destruct (T <=? now s - start_time)%Z; reflexivity.
Qed.

(** An evaluation that returns ends the loop at once, with the object as
    the constructor left it. *)
Lemma lock_loop_returns fuel T P start_time s :
  attempt_at env (attempts s) = Returns ->
  lock_loop env (S fuel) filepath mode T P start_time s =
    (Ret (mkHandle filepath mode false),
     mkState (now s) (S (attempts s)) (sleeps s)).
Proof.
  intros Hk. cbn [lock_loop]. unfold try_except, portalocker_Lock.
  rewrite Hk. reflexivity.
Qed.

(** Whatever the evaluations do, an object that comes back was never
    locked. *)
Lemma lock_loop_ret_unacquired T P start_time :
  forall fuel s h s',
    lock_loop env fuel filepath mode T P start_time s = (Ret h, s') ->
    h = mkHandle filepath mode false.
Proof.
  induction fuel as [| fuel IH]; intros s h s' Hrun.
  - discriminate Hrun.
  - cbn [lock_loop] in Hrun. unfold try_except, portalocker_Lock in Hrun.
    destruct (attempt_at env (attempts s)) as [| e] eqn:Hk.
    + now inversion Hrun.
    + destruct (is_AlreadyLocked e); [| discriminate Hrun].
      unfold bind at 1, time_time in Hrun. cbn [now] in Hrun.
      destruct (T <=? now s - start_time)%Z; [discriminate Hrun |].
      unfold bind at 1, time_sleep in Hrun. cbn [now attempts sleeps] in Hrun.
      destruct (P <? 0)%Z; [discriminate Hrun |].
      now apply IH in Hrun.
Qed.

(** C6.  On a lock that another process holds for the whole call
    [lock_file] does not wait: the constructor it calls takes no lock and
    so never raises AlreadyLocked, the first evaluation returns, and the
    call is over after one attempt, without a sleep, with no time elapsed
    and without TimeoutError, whatever the timeout and the poll
    interval. *)
Theorem lock_file_held_lock_returns_at_once T P fuel s :
  constructor_only env ->
  held_by_other env = true ->
  let run := lock_file env (S fuel) filepath mode T P s in
  fst run = Ret (mkHandle filepath mode false) /\
  fst run <> Raise (timeout_error filepath T) /\
  attempts (snd run) = S (attempts s) /\
  sleeps (snd run) = sleeps s /\
  now (snd run) = now s.
Proof.
  intros Hctor _ run.
  assert (Hrun : run = (Ret (mkHandle filepath mode false),
                        mkState (now s) (S (attempts s)) (sleeps s))).
  { subst run. unfold lock_file, bind at 1, time_time.
    now rewrite lock_loop_returns by apply Hctor. }
  rewrite Hrun. cbn [fst snd attempts sleeps now].
  split; [reflexivity |]. split; [discriminate |]. repeat split.
Qed.

(** C7.  The object [lock_file] returns does not hold the lock, whatever
    happened before it came back; with the constructor of the library and
    the lock held by another process the call nevertheless returns an
    object instead of raising. *)
Theorem lock_file_handle_is_not_acquired T P :
  (forall fuel s h s',
      lock_file env fuel filepath mode T P s = (Ret h, s') ->
      acquired h = false) /\
  (constructor_only env ->
   held_by_other env = true ->
   forall fuel s,
     exists h,
       fst (lock_file env (S fuel) filepath mode T P s) = Ret h /\
       acquired h = false).
Proof.
  split.
  - intros fuel s h s' Hrun.
    unfold lock_file, bind at 1, time_time in Hrun.
    apply lock_loop_ret_unacquired in Hrun. now subst h.
  - intros Hctor _ fuel s. eexists. split.
    + unfold lock_file, bind at 1, time_time.
      rewrite lock_loop_returns by apply Hctor. reflexivity.
    + reflexivity.
Qed.

End LockFacts.

(** Timeout 300 and poll interval 100 ticks on a lock held elsewhere: one
    attempt, no sleep, an object that holds no lock. *)
Lemma lock_file_held_lock_returns_at_once_witness :
  let run := Lock.lock_file Lock.held_elsewhere 10 "job.lock" "w" 300 100
               Lock.start in
  fst run = Ret (Lock.mkHandle "job.lock" "w" false) /\
  fst run <> Raise (Lock.timeout_error "job.lock" 300) /\
  Lock.attempts (snd run) = 1 /\
  Lock.sleeps (snd run) = [] /\
  Lock.now (snd run) = 0%Z.
Proof.
  apply (lock_file_held_lock_returns_at_once
           Lock.held_elsewhere "job.lock" "w" 300 100 9 Lock.start).
  - intros k. reflexivity.
  - reflexivity.
Defined.

(** The default timeout and a lock held elsewhere: an object comes back,
    and it holds no lock. *)
Lemma lock_file_handle_is_not_acquired_witness :
  exists h,
    fst (Lock.lock_file Lock.held_elsewhere 1 "job.lock" "w" 10 1 Lock.start)
      = Ret h /\
    Lock.acquired h = false.
Proof.
  apply (proj2 (lock_file_handle_is_not_acquired
                  Lock.held_elsewhere "job.lock" "w" 10 1)).
  - intros k. reflexivity.
  - reflexivity.
Defined.

(** ** read_stdout_lines *)

Section StdoutLinesFacts.
Import StdoutLines.

(** The loop over a front part on which nothing raises and no read is
    empty: it yields that part's lines and goes on with the rest. *)
Lemma poll_loop_app front rest :
  unbroken front = true ->
  Forall (fun l => nonempty l = true) (reads front) ->
  poll_loop (front ++ rest) =
    (map strip (reads front) ++ fst (poll_loop rest), snd (poll_loop rest)).
Proof.
  induction front as [| [| line | e] front IH]; intros Hun Hne.
  - simpl. apply surjective_pairing.
  - now apply IH.
  - change (poll_loop ((Ready line :: front) ++ rest))
      with (if nonempty line
            then let (ys, o) := poll_loop (front ++ rest) in
                 (strip line :: ys, o)
            else ([], Ret tt)).
    inversion Hne as [| ? ? Hline Hrest]; subst.
    rewrite Hline, (IH Hun Hrest). reflexivity.
  - discriminate Hun.
Qed.

(** What the loop raises is what one of its turns raised. *)
Lemma poll_loop_raises p ys e :
  poll_loop p = (ys, Raise e) -> In (Broken e) p.
Proof.
  revert ys. induction p as [| [| line | e'] rest IH]; intros ys;
    cbn [poll_loop].
  - discriminate.
  - intros H. apply in_cons. exact (IH ys H).
  - destruct (nonempty line); [| discriminate].
    destruct (poll_loop rest) as [ys' o] eqn:E.
    intros Heq. inversion Heq; subst. apply in_cons. exact (IH ys' eq_refl).
  - intros Heq. inversion Heq; subst. apply in_eq.
Qed.

(** C10.  When [proc.stdout] is None [read_stdout_lines] raises the
    ValueError of its own check, and nothing was yielded.  On a pipe it
    raises only what [select] or [readline] raised in one of its turns.
    On a pipe whose turns up to the first empty read raise nothing, it
    yields [strip] of each line read in those turns, in order, whatever
    idle turns lie between them, and stops at the empty read. *)
Theorem read_stdout_lines_spec (proc : Popen) :
  (stdout proc = None ->
     read_stdout_lines proc = ([], Raise not_a_pipe) /\
     cls not_a_pipe = ValueError) /\
  (forall p ys e,
     stdout proc = Some p ->
     read_stdout_lines proc = (ys, Raise e) ->
     In (Broken e) p) /\
  (forall front rest,
     stdout proc = Some (front ++ Ready "" :: rest) ->
     unbroken front = true ->
     Forall (fun l => nonempty l = true) (reads front) ->
     read_stdout_lines proc = (map strip (reads front), Ret tt)).
Proof.
  unfold read_stdout_lines. split; [| split].
  - intros ->. split; reflexivity.
  - intros p ys e -> Hrun. exact (poll_loop_raises p ys e Hrun).
  - intros front rest -> Hun Hne.
    rewrite (poll_loop_app front _ Hun Hne). cbn. now rewrite app_nil_r.
Qed.

End StdoutLinesFacts.

(** Two lines with idle turns between them, then end of stream; and a
    process started without a pipe. *)
Lemma read_stdout_lines_spec_witness :
  StdoutLines.read_stdout_lines (StdoutLines.mkPopen (Some StdoutLines.two_line_pipe)) =
    (["step 1"; "done"], Ret tt) /\
  StdoutLines.read_stdout_lines (StdoutLines.mkPopen None) =
    ([], Raise StdoutLines.not_a_pipe).
Proof.
  split.
  - apply (proj2 (proj2 (read_stdout_lines_spec
                           (StdoutLines.mkPopen (Some StdoutLines.two_line_pipe))))
             [StdoutLines.NotReady; StdoutLines.Ready "  step 1 
"; StdoutLines.NotReady; StdoutLines.NotReady; StdoutLines.Ready "done
"] []).
    + reflexivity.
    + reflexivity.
    + repeat constructor.
  - exact (proj1 (proj1 (read_stdout_lines_spec
                           (StdoutLines.mkPopen None)) eq_refl)).
Defined.

(** A pipe that was closed: [stdout] is not None, and the generator
    raises a ValueError before it yields anything. *)
Lemma read_stdout_lines_closed_pipe_counterexample :
  let proc := StdoutLines.mkPopen (Some StdoutLines.closed_pipe) in
  StdoutLines.stdout proc <> None /\
  StdoutLines.read_stdout_lines proc = ([], Raise StdoutLines.closed_file) /\
  cls StdoutLines.closed_file = ValueError.
Proof. repeat split. discriminate. Qed.


(** ** kill_proc_tree *)

Section ProcTreeFacts.
Import ProcTree.

Variable env : Env.

(** Killing a list of processes that are all present and stay until
    signaled raises nothing and signals each of them in order. *)
Lemma kill_all_present ps :
  forall s,
    Forall (fun p => alive p s = true /\ exits_early env p = false) ps ->
    for_each ps (kill env) s =
      (Ret tt, mkState (table s) (killed s ++ ps) (printed s)).
Proof.
  induction ps as [| p ps IH]; intros s Hall.
  - cbn [for_each]. unfold ret. rewrite app_nil_r. now destruct s.
  - inversion Hall as [| ? ? [Ha He] Hrest]; subst.
    cbn [for_each]. unfold bind at 1, kill at 1.
    rewrite Ha, He. cbn [andb negb].
    rewrite IH.
    + cbn [table killed printed]. now rewrite <- app_assoc.
    + eapply Forall_impl; [| exact Hrest].
      intros q [Hq1 Hq2]. split; [exact Hq1 | exact Hq2].
Qed.

Lemma descendants_listed depth t root p :
  In p (descendants depth t root) ->
  existsb (fun r => (pid r =? p)%Z) t = true.
Proof.
  revert root. induction depth as [| d IH]; intros root Hin.
  - contradiction.
  - cbn [descendants] in Hin. apply in_flat_map in Hin.
    destruct Hin as (r & Hr & Hp). apply filter_In in Hr.
    destruct Hr as [Hr _]. destruct Hp as [Hp | Hp].
    + apply existsb_exists. exists r. split; [exact Hr |].
      subst p. apply Z.eqb_refl.
    + now apply IH in Hp.
Qed.

Lemma present_remove p q t :
  p <> q ->
  existsb (fun r => (pid r =? p)%Z) (remove q t) =
  existsb (fun r => (pid r =? p)%Z) t.
Proof.
  intros Hpq. induction t as [| r t IH]; [reflexivity |].
  cbn [remove filter existsb]. fold (remove q t).
  destruct (Z.eqb_spec (pid r) q) as [Hq | Hq]; cbn [negb].
  - rewrite IH. destruct (Z.eqb_spec (pid r) p); [congruence | reflexivity].
  - cbn [existsb]. now rewrite IH.
Qed.

Lemma present_remove_all p gone t :
  ~ In p gone ->
  existsb (fun r => (pid r =? p)%Z) (fold_right remove t gone) =
  existsb (fun r => (pid r =? p)%Z) t.
Proof.
  induction gone as [| q gone IH]; intros Hnot; [reflexivity |].
  cbn [fold_right]. rewrite present_remove.
  - apply IH. intros Hin. apply Hnot. now right.
  - intros ->. apply Hnot. now left.
Qed.

(** C5 (amended).  [kill_proc_tree] completes without raising when the
    root exists, every enumerated descendant is still there when its
    signal is sent and, if the root is included, the root is still there
    when signaled and gone within the 5 second wait.  SIGKILL then went to
    each enumerated descendant and after them to the root.  Descendants
    that had exited before the enumeration are not in the table and so
    play no part. *)
Theorem kill_proc_tree_completes root including_parent s :
  alive root s = true ->
  Forall (fun p => exits_early env p = false)
         (descendants (length (table s)) (table s) root) ->
  (including_parent = true ->
     ~ In root (descendants (length (table s)) (table s) root) /\
     exits_early env root = false /\ lingers env root = false) ->
  exists s',
    kill_proc_tree env root including_parent s = (Ret tt, s') /\
    killed s' =
      killed s ++ descendants (length (table s)) (table s) root
               ++ (if including_parent then [root] else []).
Proof.
  intros Hroot Hstay Hincl.
  set (ds := descendants (length (table s)) (table s) root) in *.
  unfold kill_proc_tree.
  unfold bind at 1, Process. rewrite Hroot.
  unfold bind at 1, children_recursive. fold ds.
  unfold bind at 1, print.
  unfold bind at 1. rewrite kill_all_present; cbn [table killed printed].
  2:{ rewrite Forall_forall in Hstay |- *. intros p Hp. split.
      - unfold alive. cbn [table]. now apply descendants_listed in Hp.
      - now apply Hstay. }
  unfold bind at 1, wait_procs. cbn [table killed printed].
  destruct including_parent.
  - destruct (Hincl eq_refl) as (Hnot & Hearly & Hling).
    assert (Hstill :
      existsb (fun r => (pid r =? root)%Z)
        (fold_right remove (table s)
           (filter (fun p => negb (lingers env p)) ds)) = true).
    { rewrite present_remove_all; [exact Hroot |].
      intros Hin. apply filter_In in Hin. now apply Hnot. }
    unfold bind at 1, kill, alive. cbn [table killed printed].
    rewrite Hstill, Hearly. cbn [andb negb].
    unfold wait, alive. cbn [table killed printed].
    rewrite Hstill, Hling. cbn [andb].
    eexists. split; [reflexivity |]. cbn [killed].
    now rewrite <- app_assoc.
  - eexists. split; [reflexivity |]. cbn [killed]. now rewrite app_nil_r.
Qed.

(** Whatever the environment, a root that does not exist makes
    [kill_proc_tree] raise NoSuchProcess before anything is signaled. *)
Lemma kill_proc_tree_absent_root root including_parent s :
  alive root s = false ->
  kill_proc_tree env root including_parent s =
    (Raise (no_such_process root), s).
Proof.
  intros Hgone. unfold kill_proc_tree, bind at 1, Process. now rewrite Hgone.
Qed.

End ProcTreeFacts.

(** The shell 100 and its three descendants, all killed in turn. *)
Lemma kill_proc_tree_completes_witness :
  exists s',
    ProcTree.kill_proc_tree ProcTree.calm 100 true ProcTree.small_tree =
      (Ret tt, s') /\
    ProcTree.killed s' = [101; 102; 103; 100]%Z.
Proof.
  apply (kill_proc_tree_completes ProcTree.calm 100 true ProcTree.small_tree).
  - reflexivity.
  - repeat constructor.
  - intros _. split; [| split; reflexivity].
    cbn. intros [H | [H | [H | []]]]; discriminate H.
Defined.

(** C5 as stated fails: an absent root raises NoSuchProcess, and so does a
    descendant that exits between the enumeration and its signal. *)
Lemma kill_proc_tree_gone_process_counterexample :
  ProcTree.kill_proc_tree ProcTree.calm 4242 true ProcTree.empty_table =
    (Raise (ProcTree.no_such_process 4242), ProcTree.empty_table) /\
  fst (ProcTree.kill_proc_tree ProcTree.child_101_exits 100 true
         ProcTree.small_tree) =
    Raise (ProcTree.no_such_process 101).
Proof. split; reflexivity. Qed.

(** ** The worker thread and its deque *)

Section WorkerFacts.
Import Runner.

Variable env : Env.

Lemma keeps_ret {A} (a : A) : keeps (ret a).
Proof. intros s H. exact H. Qed.

Lemma keeps_raise {A} (e : exn) : keeps (@raise State A e).
Proof. intros s H. exact H. Qed.

Lemma keeps_bind {A B} (m : M State A) (k : A -> M State B) :
  keeps m -> (forall a, keeps (k a)) -> keeps (bind m k).
Proof.
  intros Hm Hk s H. unfold bind. specialize (Hm s H).
  destruct (m s) as [[a | e |] s1]; cbn [snd] in *; try exact Hm.
  now apply Hk.
Qed.

Lemma keeps_try_except {A} (body : M State A) catches handler :
  keeps body -> (forall e, keeps (handler e)) ->
  keeps (try_except body catches handler).
Proof.
  intros Hb Hh s H. unfold try_except. specialize (Hb s H).
  destruct (body s) as [[a | e |] s1]; cbn [snd] in *; try exact Hb.
  destruct (catches e); [now apply Hh | exact Hb].
Qed.

Lemma keeps_try_finally {A} (body : M State A) final :
  keeps body -> keeps final -> keeps (try_finally body final).
Proof.
  intros Hb Hf s H. unfold try_finally. specialize (Hb s H).
  destruct (body s) as [[a | e |] s1]; cbn [snd] in *; try exact Hb;
    specialize (Hf s1 Hb);
    destruct (final s1) as [[[] | e' |] s2]; cbn [snd] in *; exact Hf.
Qed.

Lemma keeps_for_each {A} (xs : list A) body :
  (forall x, keeps (body x)) -> keeps (for_each xs body).
Proof.
  intros Hb. induction xs as [| x xs IH]; cbn [for_each].
  - apply keeps_ret.
  - apply keeps_bind; [apply Hb | intros _; exact IH].
Qed.

Lemma keeps_log pid line : keeps (log env pid line).
Proof.
  intros s H. unfold log.
  destruct (logger env _); cbn [snd]; exact H.
Qed.

Lemma keeps_readline : keeps readline.
Proof.
  intros s H. unfold readline. destruct (pipe s); cbn [snd]; exact H.
Qed.

Lemma keeps_buffer_append line : keeps (buffer_append line).
Proof.
  intros s H. unfold buffer_append, deque_tracks_history in *.
  cbn [snd stdout_buffer appended set_appended set_stdout_buffer].
  rewrite H. symmetry. apply after_appends_snoc.
Qed.

Lemma keeps_stream_loop pid ticks : keeps (stream_loop env pid ticks).
Proof.
  induction ticks as [| [| | e] rest IH]; cbn [stream_loop].
  - apply keeps_ret.
  - exact IH.
  - apply keeps_bind; [apply keeps_readline | intros line].
    apply keeps_bind; [| intros _; exact IH].
    destruct (nonempty line); [| apply keeps_ret].
    apply keeps_bind; [apply keeps_log | intros _; apply keeps_buffer_append].
  - apply keeps_raise.
Qed.

Lemma keeps_drain pid : keeps (drain env pid).
Proof.
  intros s H. unfold drain.
  refine (keeps_bind _ _ _ _ s H).
  - apply keeps_for_each. intros line.
    apply keeps_bind; [apply keeps_readline | intros _].
    apply keeps_bind; [apply keeps_buffer_append | intros _; apply keeps_log].
  - intros _ s' H'. exact H'.
Qed.

Lemma keeps_stream_output pid ticks : keeps (stream_output env pid ticks).
Proof.
  unfold stream_output. apply keeps_try_finally; [| apply keeps_drain].
  apply keeps_try_except; [apply keeps_stream_loop |].
  intros e. apply keeps_log.
Qed.

(** How single steps run. *)
Lemma run_bind {A B} (m : M State A) (k : A -> M State B) s :
  bind m k s =
    match m s with
    | (Ret a, s1) => k a s1
    | (Raise e, s1) => (Raise e, s1)
    | (Hang, s1) => (Hang, s1)
    end.
Proof. reflexivity. Qed.

Lemma run_readline_cons s line rest :
  pipe s = line :: rest -> readline s = (Ret line, set_pipe rest s).
Proof. intros H. unfold readline. now rewrite H. Qed.

Lemma run_buffer_append line s :
  buffer_append line s =
    (Ret tt,
     set_appended (appended s ++ [line])
       (set_stdout_buffer (Deque.append (stdout_buffer s) line) s)).
Proof. reflexivity. Qed.

Lemma run_log_quiet :
  (forall line, logger env line = None) ->
  forall pid line s,
    log env pid line s =
      (Ret tt,
       set_logged
         (logged s ++
            [if remote env then "[" +++ str_of_opt pid +++ "]" +++ line
             else line]) s).
Proof. intros Hq pid line s. unfold log. now rewrite Hq. Qed.

(** With a logging sink that takes every line, the loop moves lines from
    the pipe to the history, in order, and does not hang. *)
Lemma stream_loop_moves_lines pid ticks :
  (forall line, logger env line = None) ->
  forall s,
    Forall (fun l => nonempty l = true) (pipe s) ->
    exists r s',
      stream_loop env pid ticks s = (r, s') /\ r <> Hang /\
      appended s' ++ pipe s' = appended s ++ pipe s /\
      Forall (fun l => nonempty l = true) (pipe s').
Proof.
  intros Hquiet. induction ticks as [| [| | e] rest IH]; intros s Hne;
    cbn [stream_loop].
  - exists (Ret tt), s. repeat split; [discriminate | exact Hne].
  - now apply IH.
  - unfold bind at 1, readline.
    destruct (pipe s) as [| line more] eqn:Hpipe.
    + cbn [nonempty]. unfold bind at 1, ret.
      destruct (IH s) as (r & s' & Hrun & Hr & Happ & Hne');
        [rewrite Hpipe; constructor |].
      exists r, s'. rewrite Hrun, Happ, Hpipe. now repeat split.
    + inversion Hne as [| ? ? Hline Hmore]; subst. rewrite Hline.
      unfold bind at 1. unfold bind at 1, log. rewrite Hquiet.
      unfold buffer_append.
      match goal with |- context [stream_loop env pid rest ?st] =>
        destruct (IH st) as (r & s' & Hrun & Hr & Happ & Hne')
      end.
      * cbn. exact Hmore.
      * exists r, s'. rewrite Hrun. repeat split; try assumption.
        rewrite Happ. cbn. now rewrite <- app_assoc.
  - exists (Raise e), s. repeat split; [discriminate | exact Hne].
Qed.

(** The final block appends whatever is left in the pipe. *)
Lemma drain_appends_rest pid :
  (forall line, logger env line = None) ->
  forall s,
    exists s',
      drain env pid s = (Ret tt, s') /\
      appended s' = appended s ++ pipe s /\ pipe s' = [].
Proof.
  intros Hquiet s. unfold drain.
  assert (Hloop : forall xs st, pipe st = xs ->
    exists st',
      for_each xs
        (fun line => _ <- readline ;; buffer_append line ;;
                     log env pid (strip line)) st = (Ret tt, st') /\
      appended st' = appended st ++ xs /\ pipe st' = []).
  { induction xs as [| x xs IHxs]; intros st Hst; cbn [for_each].
    - exists st. rewrite app_nil_r. now repeat split.
    - rewrite run_bind, run_bind, (run_readline_cons st x xs Hst).
      cbv beta iota.
      rewrite run_bind, run_buffer_append. cbv beta iota.
      rewrite (run_log_quiet Hquiet). cbv beta iota.
      match goal with |- context [for_each xs _ ?st1] =>
        destruct (IHxs st1) as (st' & Hrun & Happ & Hp)
      end; [reflexivity |].
      exists st'. rewrite Hrun. repeat split; [| exact Hp].
      rewrite Happ. cbn. now rewrite <- app_assoc. }
  destruct (Hloop (pipe s) s eq_refl) as (st' & Hrun & Happ & Hp).
  unfold bind at 1. rewrite Hrun.
  eexists. split; [reflexivity |]. cbn. now split.
Qed.

(** With such a sink the worker appends every line of the child, in the
    order the child wrote them, whatever its loop met. *)
Lemma stream_output_appends_all pid ticks :
  (forall line, logger env line = None) ->
  forall s,
    Forall (fun l => nonempty l = true) (pipe s) ->
    appended (snd (stream_output env pid ticks s)) = appended s ++ pipe s.
Proof.
  intros Hquiet s Hne. unfold stream_output, try_finally, try_except.
  destruct (stream_loop_moves_lines pid ticks Hquiet s Hne)
    as (r & s1 & Hrun & Hr & Happ & _).
  rewrite Hrun.
  assert (Hdrain : forall st, appended st ++ pipe st = appended s ++ pipe s ->
            exists st', drain env pid st = (Ret tt, st') /\
                        appended st' = appended s ++ pipe s).
  { intros st Hst. destruct (drain_appends_rest pid Hquiet st)
      as (st' & Hd & Ha & _).
    exists st'. split; [exact Hd | now rewrite Ha]. }
  destruct r as [[] | e |]; [| | congruence].
  - destruct (Hdrain s1 Happ) as (st' & Hd & Ha). now rewrite Hd.
  - destruct (is_Exception e).
    + unfold log. rewrite Hquiet.
      match goal with |- context [drain env pid ?st] =>
        destruct (Hdrain st) as (st' & Hd & Ha)
      end; [exact Happ |].
      now rewrite Hd.
    + destruct (Hdrain s1 Happ) as (st' & Hd & Ha). now rewrite Hd.
Qed.

End WorkerFacts.

(** C3.  Whatever lines the child produces, the deque never holds more
    than [maxlen] = 10 entries: not after any number of appends, and not
    when the worker is done, whatever the worker met.  After more than 10
    appends it holds exactly the last 10 lines, in the order they were
    produced; and the worker whose sink takes every line appends exactly
    the child's lines, in order. *)
Theorem stdout_buffer_bounded_fifo (lines : list string) :
  (forall n,
     length (Deque.after_appends (firstn n lines)) <= Deque.maxlen) /\
  (Deque.maxlen < length lines ->
     Deque.after_appends lines =
       skipn (length lines - Deque.maxlen) lines /\
     length (Deque.after_appends lines) = Deque.maxlen) /\
  (forall env pid ticks,
     let s' := snd (Runner.stream_output env pid ticks
                      (Runner.set_pipe lines Runner.fresh)) in
     length (Runner.stdout_buffer s') <= Deque.maxlen /\
     ((forall line, Runner.logger env line = None) ->
      Forall (fun l => nonempty l = true) lines ->
      Runner.appended s' = lines /\
      Runner.stdout_buffer s' = Deque.after_appends lines)).
Proof.
  split; [| split].
  - intros n. apply after_appends_length.
  - intros Hlong. rewrite after_appends_last_k. unfold Deque.last_k.
    split; [reflexivity |]. rewrite length_skipn.
    pose proof (eq_refl : Deque.maxlen = 10). lia.
  - intros env pid ticks s'.
    assert (Hinv : Runner.deque_tracks_history s').
    { apply keeps_stream_output. reflexivity. }
    split.
    + rewrite Hinv. apply after_appends_length.
    + intros Hquiet Hne.
      assert (Happ : Runner.appended s' = lines).
      { unfold s'. rewrite stream_output_appends_all by assumption.
        reflexivity. }
      split; [exact Happ |]. rewrite Hinv. now rewrite Happ.
Qed.

(** Twelve lines: the deque ends with the last ten. *)
Lemma stdout_buffer_bounded_fifo_witness :
  Deque.after_appends
    ["1"; "2"; "3"; "4"; "5"; "6"; "7"; "8"; "9"; "10"; "11"; "12"] =
    ["3"; "4"; "5"; "6"; "7"; "8"; "9"; "10"; "11"; "12"] /\
  length (Deque.after_appends
    ["1"; "2"; "3"; "4"; "5"; "6"; "7"; "8"; "9"; "10"; "11"; "12"]) =
    Deque.maxlen.
Proof.
  apply (stdout_buffer_bounded_fifo
    ["1"; "2"; "3"; "4"; "5"; "6"; "7"; "8"; "9"; "10"; "11"; "12"]).
  unfold Deque.maxlen. cbn [length]. lia.
Defined.

(** ** The calling thread *)

Section CallerFacts.
Import Runner.

Variable env : Env.

(** The polling loop touches neither the signals nor the local
    [stdout_content], and it returns only an exit code it has stored. *)
Lemma wait_loop_frame fuel :
  forall s r s1,
    wait_loop env fuel s = (r, s1) ->
    signalled s1 = signalled s /\
    stdout_content s1 = stdout_content s /\
    (forall c, r = Ret c -> returncode s1 = Some c).
Proof.
  induction fuel as [| fuel IH]; intros s r s1 Hrun.
  - inversion Hrun; subst. repeat split. discriminate.
  - cbn [wait_loop] in Hrun. rewrite run_bind in Hrun. unfold poll in Hrun.
    destruct (returncode s) as [c |] eqn:Hrc.
    + inversion Hrun; subst; clear Hrun. cbn. repeat split.
      intros c' Hc'. inversion Hc'; subst. exact Hrc.
    + destruct (polls s <? lifetime (child env)).
      * rewrite run_bind in Hrun. unfold time_sleep in Hrun.
        cbn [naps set_polls] in Hrun.
        destruct (interrupt env (naps s)) as [e |].
        -- inversion Hrun; subst; clear Hrun. cbn. repeat split. discriminate.
        -- apply IH in Hrun. cbn in Hrun. exact Hrun.
      * inversion Hrun; subst; clear Hrun. cbn. repeat split.
        intros c' Hc'. now inversion Hc'; subst.
Qed.

(** Left alone, the loop returns the child's exit code once the child has
    used up its polls. *)
Lemma wait_loop_exits :
  (forall k, interrupt env k = None) ->
  forall n s fuel,
    returncode s = None ->
    polls s + n = lifetime (child env) ->
    n < fuel ->
    exists s1,
      wait_loop env fuel s = (Ret (exit_status (child env)), s1) /\
      logged s1 = logged s.
Proof.
  intros Hcalm. induction n as [| n IH]; intros s fuel Hrc Hn Hfuel;
    (destruct fuel as [| fuel]; [lia |]);
    cbn [wait_loop]; rewrite run_bind; unfold poll; rewrite Hrc.
  - destruct (Nat.ltb_spec (polls s) (lifetime (child env))); [lia |].
    eexists. split; reflexivity.
  - destruct (Nat.ltb_spec (polls s) (lifetime (child env))); [| lia].
    rewrite run_bind. unfold time_sleep. cbn [naps set_polls].
    rewrite Hcalm.
    match goal with |- context [wait_loop env fuel ?st] =>
      destruct (IH st fuel) as (s1 & Hrun & Hlog)
    end; [exact Hrc | cbn; lia | lia |].
    exists s1. split; [exact Hrun | exact Hlog].
Qed.

(** [stop_process] on a process object: one SIGTERM to the child's group
    exactly when the child is still running, none otherwise. *)
Lemma stop_process_signals p s :
  signalled (snd (stop_process env (Some p) s)) =
    signalled s ++
      (if still_running env s then [(os_getpgid (pid p), SIGTERM)] else []).
Proof.
  unfold stop_process, still_running. rewrite run_bind. unfold poll.
  destruct (returncode s) as [c |] eqn:Hrc.
  - cbn. now rewrite app_nil_r.
  - destruct (polls s <? lifetime (child env)).
    + rewrite run_bind. unfold print at 1. cbv beta iota.
      rewrite run_bind. unfold os_killpg. cbv beta iota.
      rewrite run_bind. unfold wait. cbn [returncode set_signalled
        set_printed set_polls]. rewrite Hrc.
      destruct (on_sigterm (child env)); reflexivity.
    + cbn. now rewrite app_nil_r.
Qed.

(** When it returns, the child has exited. *)
Lemma stop_process_returns p s s1 :
  stop_process env (Some p) s = (Ret tt, s1) ->
  exists c, returncode s1 = Some c.
Proof.
  unfold stop_process. rewrite run_bind. unfold poll.
  destruct (returncode s) as [c |] eqn:Hrc.
  - intros Hrun. inversion Hrun; subst. now exists c.
  - destruct (polls s <? lifetime (child env)).
    + rewrite run_bind. unfold print at 1. cbv beta iota.
      rewrite run_bind. unfold os_killpg. cbv beta iota.
      rewrite run_bind. unfold wait. cbn [returncode set_signalled
        set_printed set_polls]. rewrite Hrc.
      destruct (on_sigterm (child env)) as [c |]; [| discriminate].
      intros Hrun. inversion Hrun; subst. now exists c.
    + intros Hrun. inversion Hrun; subst. cbn. eauto.
Qed.

(** The [try] block: it sends no signal; when it returns, the exit code
    is stored and the result reports it without an error; when it raises,
    the local [stdout_content] is as unbound as it was. *)
Lemma blocking_body_frame fuel pid s r s1 :
  blocking_body env fuel pid s = (r, s1) ->
  signalled s1 = signalled s /\
  match r with
  | Ret res =>
      exists c, returncode s1 = Some c /\
                res = mkResult (c =? 0)%Z (Some c) (tail_seen env) None None
  | Raise _ => stdout_content s1 = stdout_content s
  | Hang => True
  end.
Proof.
  unfold blocking_body. rewrite run_bind.
  destruct (wait_loop env fuel s) as [[c | e |] s0] eqn:Hw;
    apply wait_loop_frame in Hw; destruct Hw as (Hsig & Hsc & Hrc).
  - specialize (Hrc c eq_refl). rewrite run_bind. unfold log at 1.
    destruct (logger env _) as [e |].
    + intros Hrun. inversion Hrun; subst. now split.
    + cbv beta iota. intros Hrun. inversion Hrun; subst; clear Hrun.
      cbn. split; [exact Hsig |]. exists c. split; [exact Hrc | reflexivity].
  - intros Hrun. inversion Hrun; subst. now split.
  - intros Hrun. inversion Hrun; subst. now split.
Qed.

(** The [except] block, entered with [stdout_content] unbound, raises
    UnboundLocalError instead of building its dict. *)
Lemma blocking_handler_unbound e s :
  stdout_content s = None ->
  blocking_handler e s = (Raise (unbound_local "stdout_content"), s).
Proof.
  intros Hsc. unfold blocking_handler. rewrite run_bind.
  unfold load_stdout_content. now rewrite Hsc.
Qed.


(** The final block sends one SIGTERM exactly when the child is still
    running at that point. *)
Lemma blocking_cleanup_signals process pid s :
  signalled (snd (blocking_cleanup env process pid s)) =
    signalled s ++
      (if still_running env s
       then [(os_getpgid (Runner.pid process), SIGTERM)] else []).
Proof.
  unfold blocking_cleanup. rewrite run_bind. cbv beta iota.
  rewrite run_bind.
  pose proof (stop_process_signals process (set_terminate_flag true s)) as Hs.
  destruct (stop_process env (Some process) (set_terminate_flag true s))
    as [[[] | e |] s1]; cbn [snd] in Hs |- *; try exact Hs.
  unfold log. destruct (logger env _); cbn [snd]; exact Hs.
Qed.



(** The whole statement, entered with [stdout_content] unbound: at most
    one signal, a SIGTERM to the child's group; and a result comes back
    only from a [try] block that returned it, in which case no signal was
    sent at all. *)
Lemma blocking_branch_spec fuel process pid s r s' :
  stdout_content s = None ->
  blocking_branch env fuel process pid s = (r, s') ->
  (signalled s' = signalled s \/
   signalled s' = signalled s ++ [(os_getpgid (Runner.pid process), SIGTERM)]) /\
  (forall res, r = Ret res ->
     signalled s' = signalled s /\
     exists s1 c,
       blocking_body env fuel pid s = (Ret res, s1) /\
       res = mkResult (c =? 0)%Z (Some c) (tail_seen env) None None).
Proof.
  intros Hsc. unfold blocking_branch, try_finally, try_except.
  destruct (blocking_body env fuel pid s) as [[res | e |] s1] eqn:Hbody;
    pose proof (blocking_body_frame _ _ _ _ _ Hbody) as [Hsig Hres].
  - destruct Hres as (c & Hrc & Hres).
    pose proof (blocking_cleanup_signals process pid s1) as Hcl.
    unfold still_running in Hcl. rewrite Hrc, app_nil_r in Hcl.
    destruct (blocking_cleanup env process pid s1) as [[[] | e' |] s2];
      cbn [snd] in Hcl; intros Hrun; inversion Hrun; subst r s2;
      (split; [left; congruence |]); intros res' Hr'; try discriminate Hr'.
    inversion Hr'; subst res'. split; [congruence |].
    exists s1, c. split; [reflexivity | exact Hres].
  - assert (Htry :
      exists e1 s2,
        (if is_Exception e then blocking_handler e s1 else (Raise e, s1)) =
          (Raise e1, s2) /\ signalled s2 = signalled s).
    { destruct (is_Exception e).
      - rewrite blocking_handler_unbound by congruence. eauto.
      - eauto. }
    destruct Htry as (e1 & s2 & -> & Hsig2).
    pose proof (blocking_cleanup_signals process pid s2) as Hcl.
    destruct (blocking_cleanup env process pid s2) as [[[] | e' |] s3];
      cbn [snd] in Hcl; intros Hrun; inversion Hrun; subst r s3;
      (split; [| intros res' Hr'; discriminate Hr']);
      rewrite Hcl, Hsig2; destruct (still_running env s2);
      (now right) || (left; now rewrite app_nil_r).
  - intros Hrun. inversion Hrun; subst. split; [left; exact Hsig |].
    intros res' Hr'. discriminate Hr'.
Qed.

(** The start of the worker and the call [os.getpgid(pid)], for a child
    that has not been seen to exit before. *)
Lemma run_thread_start_getpgid {A} p (k : Z -> M State A) s :
  returncode s = None ->
  (output_thread_start env ;; pgid <- getpgid p ;; k pgid) s =
    if reaped_at_launch env
    then (Raise process_lookup_error,
          set_returncode (Some (exit_status (child env))) s)
    else k (os_getpgid p) s.
Proof.
  intros Hrc. rewrite run_bind. unfold output_thread_start.
  destruct (reaped_at_launch env); cbv beta iota; rewrite run_bind;
    unfold getpgid.
  - reflexivity.
  - now rewrite Hrc.
Qed.

(** A blocking call either fails before its [try] statement (the sink
    rejects a line, the child cannot be started, the child is gone at the
    group line), without sending a signal, or runs that statement with [stdout_content] unbound
    and hands on what it produced. *)
Lemma run_and_stream_blocking_cases fuel command s r s' :
  run_and_stream env fuel command true s = (r, s') ->
  (signalled s' = signalled s /\ exists e, r = Raise e) \/
  (exists s0 r0,
     stdout_content s0 = None /\ signalled s0 = signalled s /\
     blocking_branch env fuel (mkPopen (child_pid (child env)))
       (Some (child_pid (child env))) s0 = (r0, s') /\
     r = match r0 with
         | Ret res => Ret (inr res)
         | Raise e => Raise e
         | Hang => Hang
         end).
Proof.
  unfold run_and_stream. rewrite run_bind. unfold log at 1.
  destruct (logger env _) as [e |].
  { intros Hrun. inversion Hrun; subst. left. eauto. }
  cbv beta iota. rewrite run_bind. unfold subprocess_Popen.
  destruct (spawn_error env) as [e |].
  { intros Hrun. inversion Hrun; subst. left. eauto. }
  cbv beta iota. rewrite run_bind. cbv beta iota.
  rewrite run_thread_start_getpgid by reflexivity.
  destruct (reaped_at_launch env).
  { intros Hrun. inversion Hrun; subst. left. eauto. }
  rewrite run_bind. unfold log at 1.
  destruct (logger env _) as [e |].
  { intros Hrun. inversion Hrun; subst. left. eauto. }
  cbv beta iota. cbn [negb pid]. rewrite run_bind.
  match goal with |- context [blocking_branch env fuel _ _ ?st] =>
    set (s0 := st)
  end.
  destruct (blocking_branch env fuel (mkPopen (child_pid (child env)))
              (Some (child_pid (child env))) s0) as [r0 s1] eqn:Hbr.
  intros Hrun. right. exists s0, r0.
  split; [reflexivity |]. split; [reflexivity |].
  destruct r0 as [res | e |]; inversion Hrun; subst; now split.
Qed.

(** Undisturbed, on a child that is still there at the group line, and
    given enough fuel for the child's lifetime, a blocking call returns
    the dict built from the exit code and from what the deque held when it
    was read. *)
Lemma run_and_stream_undisturbed fuel command s :
  undisturbed env ->
  reaped_at_launch env = false ->
  lifetime (child env) < fuel ->
  exists s',
    run_and_stream env fuel command true s =
      (Ret (inr (mkResult (exit_status (child env) =? 0)%Z
                          (Some (exit_status (child env)))
                          (tail_seen env) None None)), s') /\
    signalled s' = signalled s.
Proof.
  intros (Hspawn & Hquiet & Hcalm) Hthere Hfuel.
  unfold run_and_stream. rewrite run_bind, (run_log_quiet env Hquiet).
  cbv beta iota. rewrite run_bind. unfold subprocess_Popen. rewrite Hspawn.
  cbv beta iota. rewrite run_bind. cbv beta iota.
  rewrite run_thread_start_getpgid by reflexivity. rewrite Hthere.
  rewrite run_bind, (run_log_quiet env Hquiet). cbv beta iota.
  cbn [negb pid]. rewrite run_bind.
  match goal with |- context [blocking_branch env fuel _ _ ?st] =>
    set (s0 := st)
  end.
  assert (Hsig0 : signalled s0 = signalled s) by reflexivity.
  destruct (wait_loop_exits Hcalm (lifetime (child env)) s0 fuel)
    as (s1 & Hwait & _); [reflexivity | reflexivity | exact Hfuel |].
  destruct (wait_loop_frame _ _ _ _ Hwait) as (Hsig1 & _ & Hrc).
  specialize (Hrc _ eq_refl).
  unfold blocking_branch, try_finally, try_except, blocking_body.
  rewrite run_bind, Hwait. cbv beta iota.
  rewrite run_bind, (run_log_quiet env Hquiet). cbv beta iota.
  rewrite run_bind. unfold observe_worker at 1. cbv beta iota zeta.
  rewrite run_bind. unfold assign_stdout_content at 1. cbv beta iota.
  rewrite run_bind. unfold load_stdout_content at 1.
  cbn [stdout_content set_stdout_content]. cbv beta iota.
  unfold ret at 1.
  unfold blocking_cleanup. rewrite run_bind. cbv beta iota.
  rewrite run_bind. unfold stop_process. rewrite run_bind. unfold poll.
  cbn [returncode set_terminate_flag set_stdout_content set_appended
       set_stdout_buffer set_logged]. rewrite Hrc. cbv beta iota.
  unfold ret at 1. cbv beta iota.
  rewrite (run_log_quiet env Hquiet). cbv beta iota.
  eexists. split; [reflexivity |]. cbn. congruence.
Qed.

(** When the worker has collected the child before the group line, the
    call [os.getpgid(pid)] of that line raises; it stands before the
    branch on [blocking] and outside the [try] statement, so the
    exception leaves the call in both modes, and no signal is sent. *)
Lemma run_and_stream_reaped fuel command blocking s :
  spawn_error env = None ->
  (forall line, logger env line = None) ->
  reaped_at_launch env = true ->
  fst (run_and_stream env fuel command blocking s) =
    Raise process_lookup_error /\
  signalled (snd (run_and_stream env fuel command blocking s)) = signalled s.
Proof.
  intros Hspawn Hquiet Hgone.
  assert (Hrun : exists s',
            run_and_stream env fuel command blocking s =
              (Raise process_lookup_error, s') /\
            signalled s' = signalled s).
  { unfold run_and_stream. rewrite run_bind, (run_log_quiet env Hquiet).
    cbv beta iota. rewrite run_bind. unfold subprocess_Popen. rewrite Hspawn.
    cbv beta iota. rewrite run_bind. cbv beta iota.
    rewrite run_thread_start_getpgid by reflexivity. rewrite Hgone.
    eexists. split; reflexivity. }
  destruct Hrun as (s' & -> & Hsig). now split.
Qed.

End CallerFacts.

(** ** run_and_stream and stop_process: the claims *)

Section RunnerClaims.
Import Runner.

Variable env : Env.

(** No blocking call ever returns a dict with an [error] entry: every
    returned result is the one the [try] block builds from an exit code. *)
Lemma run_and_stream_never_reports_error fuel command s res s' :
  run_and_stream env fuel command true s = (Ret (inr res), s') ->
  error res = None /\ traceback res = None /\
  exists c, exit_code res = Some c /\ success res = (c =? 0)%Z.
Proof.
  intros Hrun. apply run_and_stream_blocking_cases in Hrun.
  destruct Hrun as [(_ & e & He) | (s0 & r0 & Hsc & _ & Hbr & Hr)];
    [discriminate He |].
  destruct r0 as [res0 | e |]; try discriminate Hr.
  inversion Hr; subst res0.
  destruct (blocking_branch_spec env _ _ _ _ _ _ Hsc Hbr) as [_ Hres].
  destruct (Hres res eq_refl) as (_ & s1 & c & _ & ->).
  cbn. repeat split. now exists c.
Qed.


(** C4.  The exit code is reported only when the child is still there at
    the group line.  A child that has exited and has been collected by the
    worker before that line makes [os.getpgid] raise ProcessLookupError,
    outside the [try] statement: the call raises instead of returning a
    result, whatever the exit code.  Otherwise, undisturbed, the call
    returns success = True and exit_code = 0 for exit code 0, and
    success = False and exit_code = C for a non-zero code C. *)
Theorem run_and_stream_exit_code_lost_when_reaped fuel command s :
  undisturbed env ->
  (reaped_at_launch env = true ->
     fst (run_and_stream env fuel command true s) =
       Raise process_lookup_error) /\
  (reaped_at_launch env = false ->
   lifetime (child env) < fuel ->
   exists res s',
     run_and_stream env fuel command true s = (Ret (inr res), s') /\
     exit_code res = Some (exit_status (child env)) /\
     (exit_status (child env) = 0%Z -> success res = true) /\
     (exit_status (child env) <> 0%Z -> success res = false)).
Proof.
  intros Hcalm. split.
  - intros Hgone. destruct Hcalm as (Hspawn & Hquiet & _).
    apply (run_and_stream_reaped env fuel command true s Hspawn Hquiet Hgone).
  - intros Hthere Hfuel.
    destruct (run_and_stream_undisturbed env fuel command s Hcalm Hthere Hfuel)
      as (s' & Hrun & _).
    eexists. exists s'. split; [exact Hrun |]. cbn [exit_code success].
    split; [reflexivity |]. split.
    + intros ->. reflexivity.
    + intros Hne. now apply Z.eqb_neq.
Qed.

(** C8.  On the child of [echo hello && exit 3] a blocking call does not
    always return the line.  When the worker has collected the child
    before the group line, [os.getpgid] raises ProcessLookupError and no
    result is returned.  Otherwise, undisturbed, the result has
    success = False and exit_code = 3, and its stdout is what the worker
    had appended when the deque was read, as the result is put together
    before the worker is joined: the line "hello" with its newline once
    that append was made, the empty string before. *)
Theorem run_and_stream_echo_hello_races n fuel s :
  undisturbed env ->
  child env = echo_hello_exit_3 n ->
  (reaped_at_launch env = true ->
     fst (run_and_stream env fuel "echo hello && exit 3" true s) =
       Raise process_lookup_error) /\
  (reaped_at_launch env = false ->
   n < fuel ->
   exists res s',
     run_and_stream env fuel "echo hello && exit 3" true s =
       (Ret (inr res), s') /\
     success res = false /\
     exit_code res = Some 3%Z /\
     stdout res = (if appends_seen env =? 0 then "" else "hello
")).
Proof.
  intros Hcalm Hchild. split.
  - intros Hgone. destruct Hcalm as (Hspawn & Hquiet & _).
    apply (run_and_stream_reaped env fuel _ true s Hspawn Hquiet Hgone).
  - intros Hthere Hfuel.
    destruct (run_and_stream_undisturbed env fuel "echo hello && exit 3" s
                Hcalm Hthere)
      as (s' & Hrun & _); [rewrite Hchild; exact Hfuel |].
    eexists. exists s'. split; [exact Hrun |]. cbn [exit_code success stdout].
    rewrite Hchild. cbn [exit_status echo_hello_exit_3].
    repeat split. unfold tail_seen, worker_end.
    destruct Hcalm as (_ & Hquiet & _).
    rewrite stream_output_appends_all; [| exact Hquiet |].
    + unfold worker_start. rewrite Hchild. cbn [output echo_hello_exit_3].
      destruct (appends_seen env) as [| [| k]]; reflexivity.
    + unfold worker_start. rewrite Hchild. repeat constructor.
Qed.

(** C9.  [stop_process] on a child that has already exited completes
    without sending a signal or printing, and changes nothing at all when
    the exit had been seen before; on a child still running it sends
    SIGTERM to the child's whole group and returns once [process.wait()]
    has the return code; [None] is ignored; and a second call right after
    a first one does nothing. *)
Theorem stop_process_idempotent p s :
  (still_running env s = false ->
     exists s',
       stop_process env (Some p) s = (Ret tt, s') /\
       signalled s' = signalled s /\ printed s' = printed s /\
       (forall c, returncode s = Some c -> s' = s)) /\
  (still_running env s = true ->
     forall c, on_sigterm (child env) = Some c ->
     exists s',
       stop_process env (Some p) s = (Ret tt, s') /\
       signalled s' = signalled s ++ [(os_getpgid (pid p), SIGTERM)] /\
       returncode s' = Some c) /\
  stop_process env None s = (Ret tt, s) /\
  (forall s1,
     stop_process env (Some p) s = (Ret tt, s1) ->
     stop_process env (Some p) s1 = (Ret tt, s1)).
Proof.
  split; [| split; [| split]].
  - unfold still_running, stop_process. rewrite run_bind. unfold poll.
    destruct (returncode s) as [c |] eqn:Hrc.
    + intros _. exists s. repeat split. 
    + intros Hgone. rewrite Hgone. eexists. split; [reflexivity |].
      cbn. repeat split. discriminate.
  - unfold still_running, stop_process. rewrite run_bind. unfold poll.
    destruct (returncode s) as [c0 |] eqn:Hrc; [discriminate |].
    intros Hrun c Hterm. rewrite Hrun.
    rewrite run_bind. unfold print at 1. cbv beta iota.
    rewrite run_bind. unfold os_killpg. cbv beta iota.
    rewrite run_bind. unfold wait.
    cbn [returncode set_signalled set_printed set_polls].
    rewrite Hrc, Hterm. eexists. split; [reflexivity |]. now cbn.
  - reflexivity.
  - intros s1 Hrun.
    destruct (stop_process_returns env p s s1 Hrun) as (c & Hrc).
    unfold stop_process. rewrite run_bind. unfold poll. now rewrite Hrc.
Qed.

End RunnerClaims.

(** C1.  The wait loop is left by an exception (a signal handler raises
    during the first sleep), or the sink rejects the line that reports the
    exit code: in both runs the [except] block reads [stdout_content]
    before any assignment bound it, so the call raises UnboundLocalError
    instead of returning a dict with the error captured. *)
Theorem run_and_stream_wait_loop_exception_escapes :
  fst (Runner.run_and_stream Runner.alarm_during_first_sleep 5 "sleep 100"
         true Runner.fresh) =
    Raise (Runner.unbound_local "stdout_content") /\
  fst (Runner.run_and_stream Runner.sink_rejects_exit_line 5 "true"
         true Runner.fresh) =
    Raise (Runner.unbound_local "stdout_content").
Proof. split; reflexivity. Qed.



(** The command "exit 2": collected before the group line, the call
    raises; still there at that line, the call reports the code. *)
Lemma run_and_stream_exit_code_lost_when_reaped_witness :
  fst (Runner.run_and_stream
         (Runner.collected_early (Runner.printer [] 0 2)) 5 "exit 2" true
         Runner.fresh) = Raise Runner.process_lookup_error /\
  (exists res s',
     Runner.run_and_stream (Runner.calm (Runner.printer [] 2 2) 0) 5
       "exit 2" true Runner.fresh = (Ret (inr res), s') /\
     Runner.exit_code res = Some 2%Z /\
     (2%Z = 0%Z -> Runner.success res = true) /\
     (2%Z <> 0%Z -> Runner.success res = false)).
Proof.
  split.
  - apply (run_and_stream_exit_code_lost_when_reaped
             (Runner.collected_early (Runner.printer [] 0 2)) 5 "exit 2"
             Runner.fresh).
    + repeat split.
    + reflexivity.
  - apply (run_and_stream_exit_code_lost_when_reaped
             (Runner.calm (Runner.printer [] 2 2) 0) 5 "exit 2" Runner.fresh).
    + repeat split.
    + reflexivity.
    + cbn. lia.
Defined.

(** Three schedules of the same command: the child is collected before
    the group line; the deque is read before the worker's append; the
    deque is read after it. *)
Lemma run_and_stream_echo_hello_races_witness :
  fst (Runner.run_and_stream
         (Runner.collected_early (Runner.echo_hello_exit_3 0)) 5
         "echo hello && exit 3" true Runner.fresh) =
    Raise Runner.process_lookup_error /\
  (exists res s',
     Runner.run_and_stream (Runner.calm (Runner.echo_hello_exit_3 1) 0) 5
       "echo hello && exit 3" true Runner.fresh = (Ret (inr res), s') /\
     Runner.success res = false /\
     Runner.exit_code res = Some 3%Z /\
     Runner.stdout res = "") /\
  (exists res s',
     Runner.run_and_stream (Runner.calm (Runner.echo_hello_exit_3 1) 1) 5
       "echo hello && exit 3" true Runner.fresh = (Ret (inr res), s') /\
     Runner.success res = false /\
     Runner.exit_code res = Some 3%Z /\
     Runner.stdout res = "hello
").
Proof.
  split; [| split].
  - apply (run_and_stream_echo_hello_races
             (Runner.collected_early (Runner.echo_hello_exit_3 0)) 0 5
             Runner.fresh).
    + repeat split.
    + reflexivity.
    + reflexivity.
  - apply (run_and_stream_echo_hello_races
             (Runner.calm (Runner.echo_hello_exit_3 1) 0) 1 5 Runner.fresh).
    + repeat split.
    + reflexivity.
    + reflexivity.
    + lia.
  - apply (run_and_stream_echo_hello_races
             (Runner.calm (Runner.echo_hello_exit_3 1) 1) 1 5 Runner.fresh).
    + repeat split.
    + reflexivity.
    + reflexivity.
    + lia.
Defined.

(** A child that has exited is left alone; a running one is signaled and
    waited for. *)
Lemma stop_process_idempotent_witness :
  (exists s',
     Runner.stop_process (Runner.calm (Runner.printer [] 0 0) 0)
       (Some (Runner.mkPopen 4321)) Runner.fresh = (Ret tt, s') /\
     Runner.signalled s' = [] /\ Runner.printed s' = [] /\
     (forall c, Runner.returncode Runner.fresh = Some c -> s' = Runner.fresh)) /\
  (exists s',
     Runner.stop_process (Runner.calm (Runner.printer [] 3 0) 0)
       (Some (Runner.mkPopen 4321)) Runner.fresh = (Ret tt, s') /\
     Runner.signalled s' = [] ++ [(4321%Z, Runner.SIGTERM)] /\
     Runner.returncode s' = Some (-15)%Z).
Proof.
  split.
  - apply (stop_process_idempotent (Runner.calm (Runner.printer [] 0 0) 0)
             (Runner.mkPopen 4321) Runner.fresh).
    reflexivity.
  - apply (proj1 (proj2 (stop_process_idempotent
             (Runner.calm (Runner.printer [] 3 0) 0)
             (Runner.mkPopen 4321) Runner.fresh))).
    + reflexivity.
    + reflexivity.
Defined.

(** ** lock_file: errors other than AlreadyLocked *)

Section LockExtras.
Import Lock.

Variable env : Env.
Variables filepath mode : string.

(** While the lock is refused and the deadline test still fails, each
    turn of the loop costs one attempt and one sleep of P. *)
Lemma lock_loop_waits T P start_time :
  (0 <= P)%Z ->
  forall k s fuel,
    (forall i, i < k ->
       attempt_at env (attempts s + i) = Refused already_locked) ->
    (k = 0 \/ (now s - start_time + (Z.of_nat k - 1) * P < T)%Z) ->
    lock_loop env (k + fuel) filepath mode T P start_time s =
    lock_loop env fuel filepath mode T P start_time
      (mkState (now s + Z.of_nat k * P) (attempts s + k)
               (sleeps s ++ repeat P k)).
Proof.
  intros HP. induction k as [| k IH]; intros s fuel Hheld Hlate.
  - cbn [Nat.add repeat Z.of_nat]. rewrite app_nil_r, Nat.add_0_r.
    replace (now s + 0 * P)%Z with (now s) by lia. now destruct s.
  - change (S k + fuel) with (S (k + fuel)).
    rewrite lock_loop_refused
      by (rewrite <- (Nat.add_0_r (attempts s)); apply Hheld; lia).
    cbv zeta.
    assert (Hlt : (now s - start_time < T)%Z) by nia.
    destruct (Z.leb_spec T (now s - start_time)) as [Hle | _]; [lia |].
    unfold bind at 1, time_sleep. cbn [now attempts sleeps].
    destruct (Z.ltb_spec P 0) as [Hneg | _]; [lia |].
    rewrite IH; cbn [now attempts sleeps].
    + f_equal. f_equal.
      * lia.
      * lia.
      * rewrite <- app_assoc. reflexivity.
    + intros i Hi. replace (S (attempts s) + i) with (attempts s + S i) by lia.
      apply Hheld. lia.
    + destruct k as [| k]; [now left | right; lia].
Qed.

(** A refusal that is not AlreadyLocked is not caught. *)
Lemma lock_loop_foreign fuel T P start_time s e :
  attempt_at env (attempts s) = Refused e ->
  is_AlreadyLocked e = false ->
  lock_loop env (S fuel) filepath mode T P start_time s =
    (Raise e, mkState (now s) (S (attempts s)) (sleeps s)).
Proof.
  intros Hk He. cbn [lock_loop]. unfold try_except, portalocker_Lock.
  now rewrite Hk, He.
Qed.

(** X2.  An error of the lock attempt other than AlreadyLocked ends the
    call at once with that very exception: it is neither retried nor
    turned into a timeout, also after k refused attempts. *)
Theorem lock_file_propagates_other_errors T P k fuel s e :
  (0 <= P)%Z ->
  (forall i, i < k ->
     attempt_at env (attempts s + i) = Refused already_locked) ->
  attempt_at env (attempts s + k) = Refused e ->
  is_AlreadyLocked e = false ->
  (k = 0 \/ ((Z.of_nat k - 1) * P < T)%Z) ->
  k < fuel ->
  lock_file env fuel filepath mode T P s =
    (Raise e,
     mkState (now s + Z.of_nat k * P) (attempts s + S k)
             (sleeps s ++ repeat P k)).
Proof.
  intros HP Hheld Hbad He Hlate Hfuel.
  unfold lock_file, bind at 1, time_time.
  replace fuel with (k + S (fuel - S k)) by lia.
  rewrite lock_loop_waits; try assumption.
  - rewrite (lock_loop_foreign _ _ _ _ _ e) by assumption.
    cbn [now attempts sleeps]. do 2 f_equal. lia.
  - destruct Hlate as [H0 | Hlt]; [now left | right; lia].
Qed.

End LockExtras.

(** The evaluation fails with an OSError: it comes straight out. *)
Lemma lock_file_propagates_other_errors_witness :
  Lock.lock_file Scenarios.unreadable 10 "job.lock" "w" 1000 100 Lock.start =
    (Raise Scenarios.permission_denied, Lock.mkState 0 1 []).
Proof.
  apply (lock_file_propagates_other_errors
           Scenarios.unreadable "job.lock" "w" 1000 100 0 10 Lock.start).
  - lia.
  - intros i Hi. lia.
  - reflexivity.
  - reflexivity.
  - now left.
  - lia.
Defined.


(** ** read_stdout_lines without an end of stream *)

Section StdoutLinesExtras.
Import StdoutLines.

(** X4.  The generator has no end of its own: on any run of turns in
    which nothing raises and no read returns the empty string it has
    yielded [strip] of every line read, in order, nothing for the idle
    turns, and it is still polling; when [select] or [readline] raises
    after such a run, the exception comes out of the generator after those
    yields. *)
Theorem read_stdout_lines_polls_until_eof (p : pipe) :
  unbroken p = true ->
  Forall (fun l => nonempty l = true) (reads p) ->
  read_stdout_lines (mkPopen (Some p)) = (map strip (reads p), Hang) /\
  (forall e rest,
     read_stdout_lines (mkPopen (Some (p ++ Broken e :: rest))) =
       (map strip (reads p), Raise e)).
Proof.
  unfold read_stdout_lines. cbn [stdout]. intros Hun Hne. split.
  - rewrite <- (app_nil_r p) at 1.
    rewrite (poll_loop_app p [] Hun Hne). cbn. now rewrite app_nil_r.
  - intros e rest.
    rewrite (poll_loop_app p _ Hun Hne). cbn. now rewrite app_nil_r.
Qed.

End StdoutLinesExtras.

(** Two lines, the second one blank, and no end of stream yet; then the
    pipe is closed under the generator. *)
Lemma read_stdout_lines_polls_until_eof_witness :
  StdoutLines.read_stdout_lines
    (StdoutLines.mkPopen (Some Scenarios.quiet_pipe)) =
    (["one"; ""], Hang) /\
  StdoutLines.read_stdout_lines
    (StdoutLines.mkPopen
       (Some (Scenarios.quiet_pipe ++ StdoutLines.closed_pipe))) =
    (["one"; ""], Raise StdoutLines.closed_file).
Proof.
  destruct (read_stdout_lines_polls_until_eof Scenarios.quiet_pipe)
    as [Hpoll Hraise].
  - reflexivity.
  - repeat constructor.
  - split; [exact Hpoll | exact (Hraise StdoutLines.closed_file [])].
Defined.

(** ** kill_proc_tree: what it signals *)

Section ProcTreeExtras.
Import ProcTree.

Variable env : Env.

(** Killing a list of processes signals a front part of the list, in
    order, and all of it when nothing raises. *)
Lemma kill_front ps :
  forall s,
    exists done rest,
      ps = done ++ rest /\
      killed (snd (for_each ps (kill env) s)) = killed s ++ done /\
      (fst (for_each ps (kill env) s) = Ret tt -> rest = []).
Proof.
  induction ps as [| p ps IH]; intros s.
  - exists [], []. cbn. rewrite app_nil_r. now repeat split.
  - assert (Hstep :
      for_each (p :: ps) (kill env) s =
        if alive p s && negb (exits_early env p)
        then for_each ps (kill env)
               (mkState (table s) (killed s ++ [p]) (printed s))
        else (Raise (no_such_process p),
              mkState (remove p (table s)) (killed s) (printed s))).
    { cbn [for_each]. unfold bind, kill at 1.
      now destruct (alive p s && negb (exits_early env p)). }
    rewrite Hstep. clear Hstep.
    destruct (alive p s && negb (exits_early env p)).
    + match goal with |- context [for_each ps (kill env) ?st] =>
        destruct (IH st) as (done & rest & Hps & Hk & Hret)
      end.
      exists (p :: done), rest. cbn [killed] in Hk. rewrite Hk.
      repeat split.
      * cbn. now rewrite Hps.
      * now rewrite <- app_assoc.
      * exact Hret.
    + exists [], (p :: ps). cbn. rewrite app_nil_r.
      repeat split. discriminate.
Qed.

(** X5.  Whatever the operating system does, [kill_proc_tree] signals
    only processes of the tree: the processes it has sent SIGKILL are a
    front part of the enumerated descendants followed, if the parent is
    included, by the root, in that order, and all of them when the call
    returns.  With [including_parent=False] the root is not in the list
    to signal. *)
Theorem kill_proc_tree_signals_only_the_tree
    (root : Z) (including_parent : bool) (s : State) :
  exists done rest,
    descendants (length (table s)) (table s) root
      ++ (if including_parent then [root] else []) = done ++ rest /\
    killed (snd (kill_proc_tree env root including_parent s)) =
      killed s ++ done /\
    (fst (kill_proc_tree env root including_parent s) = Ret tt ->
     rest = []).
Proof.
  set (ds := descendants (length (table s)) (table s) root).
  destruct (kill_proc_tree env root including_parent s) as [r s'] eqn:Hrun.
  cbn [fst snd]. revert Hrun.
  unfold kill_proc_tree, bind at 1, Process.
  destruct (alive root s).
  2:{ intros Hrun. inversion Hrun; subst.
      exists (@nil Z), (ds ++ (if including_parent then [root] else [])).
      cbn. rewrite app_nil_r. repeat split. discriminate. }
  unfold bind at 1, children_recursive. fold ds.
  unfold bind at 1, print. unfold bind at 1.
  match goal with |- context [for_each ds (kill env) ?st] =>
    destruct (kill_front ds st) as (done & rest & Hds & Hk & Hret);
    destruct (for_each ds (kill env) st) as [[[] | e |] s1]
  end; cbn [fst snd killed] in *.
  - rewrite (Hret eq_refl), app_nil_r in Hds. subst done.
    unfold bind at 1, wait_procs. cbn [table killed printed].
    destruct including_parent.
    + unfold bind at 1, kill, alive. cbn [table killed printed].
      match goal with |- context [if ?c then _ else _] => destruct c end.
      * unfold wait, alive. cbn [table killed printed].
        match goal with |- context [if ?c then _ else _] => destruct c end;
          intros Hrun; inversion Hrun; subst; cbn [killed];
          exists (ds ++ [root]), (@nil Z);
          rewrite app_nil_r, Hk, <- app_assoc;
          repeat split; discriminate.
      * intros Hrun. inversion Hrun; subst. cbn [killed].
        exists ds, [root]. rewrite Hk. repeat split. discriminate.
    + intros Hrun. inversion Hrun; subst. cbn [killed].
      exists ds, (@nil Z). rewrite Hk. now repeat split.
  - intros Hrun. inversion Hrun; subst.
    exists done, (rest ++ (if including_parent then [root] else [])).
    rewrite Hds, <- app_assoc. repeat split; [exact Hk | discriminate].
  - intros Hrun. inversion Hrun; subst.
    exists done, (rest ++ (if including_parent then [root] else [])).
    rewrite Hds, <- app_assoc. repeat split; [exact Hk | discriminate].
Qed.

(** X6.  The root is killed and then waited for at most 5 seconds: a
    root that is still there when the wait ends makes the call raise
    TimeoutExpired, after every process of the tree was signaled. *)
Theorem kill_proc_tree_root_outlives_wait root s :
  alive root s = true ->
  Forall (fun p => exits_early env p = false)
         (descendants (length (table s)) (table s) root) ->
  ~ In root (descendants (length (table s)) (table s) root) ->
  exits_early env root = false ->
  lingers env root = true ->
  exists s',
    kill_proc_tree env root true s = (Raise (timeout_expired root), s') /\
    killed s' =
      killed s ++ descendants (length (table s)) (table s) root ++ [root].
Proof.
  intros Hroot Hstay Hnot Hearly Hling.
  set (ds := descendants (length (table s)) (table s) root) in *.
  unfold kill_proc_tree.
  unfold bind at 1, Process. rewrite Hroot.
  unfold bind at 1, children_recursive. fold ds.
  unfold bind at 1, print.
  unfold bind at 1. rewrite kill_all_present; cbn [table killed printed].
  2:{ rewrite Forall_forall in Hstay |- *. intros p Hp. split.
      - unfold alive. cbn [table]. now apply descendants_listed in Hp.
      - now apply Hstay. }
  unfold bind at 1, wait_procs. cbn [table killed printed].
  assert (Hstill :
    existsb (fun r => (pid r =? root)%Z)
      (fold_right remove (table s)
         (filter (fun p => negb (lingers env p)) ds)) = true).
  { rewrite present_remove_all; [exact Hroot |].
    intros Hin. apply filter_In in Hin. now apply Hnot. }
  unfold bind at 1, kill, alive. cbn [table killed printed].
  rewrite Hstill, Hearly. cbn [andb negb].
  unfold wait, alive. cbn [table killed printed].
  rewrite Hstill, Hling. cbn [andb].
  eexists. split; [reflexivity |]. cbn [killed].
  now rewrite <- app_assoc.
Qed.

End ProcTreeExtras.

(** The shell 100 survives its SIGKILL for more than 5 seconds. *)
Lemma kill_proc_tree_root_outlives_wait_witness :
  exists s',
    ProcTree.kill_proc_tree Scenarios.root_100_lingers 100 true
      ProcTree.small_tree = (Raise (ProcTree.timeout_expired 100), s') /\
    ProcTree.killed s' = [101; 102; 103; 100]%Z.
Proof.
  apply (kill_proc_tree_root_outlives_wait
           Scenarios.root_100_lingers 100 ProcTree.small_tree).
  - reflexivity.
  - repeat constructor.
  - cbn. intros [H | [H | [H | []]]]; discriminate H.
  - reflexivity.
  - reflexivity.
Defined.

(** ** run_and_stream: further behaviour of the calling thread *)

(** Unfold the field updates of a state given by its constructor. *)
Ltac flatten_state :=
  cbv beta iota delta
    [Runner.set_logged Runner.set_printed Runner.set_returncode
     Runner.set_polls Runner.set_naps Runner.set_signalled
     Runner.set_terminate_flag Runner.set_stdout_content Runner.set_pipe
     Runner.set_stdout_buffer Runner.set_appended Runner.set_pipe_closed
     Runner.logged Runner.printed Runner.returncode Runner.polls
     Runner.naps Runner.signalled Runner.terminate_flag
     Runner.stdout_content Runner.pipe Runner.stdout_buffer
     Runner.appended Runner.pipe_closed].

Section RunnerExtras.
Import Runner.

Variable env : Env.

(** Left alone for [n] more polls of a running child, the loop returns
    the exit code after [n] sleeps and one console line. *)
Lemma wait_loop_exits_state :
  (forall k, interrupt env k = None) ->
  forall n s fuel,
    returncode s = None ->
    polls s + n = lifetime (child env) ->
    n < fuel ->
    wait_loop env fuel s =
      (Ret (exit_status (child env)),
       set_printed
         (printed s ++
            ["Process finished with code "
               +++ str_of_Z (exit_status (child env))])
         (set_returncode (Some (exit_status (child env)))
            (set_naps (naps s + n) (set_polls (polls s + n) s)))).
Proof.
  intros Hcalm. induction n as [| n IH]; intros s fuel Hrc Hn Hfuel;
    (destruct fuel as [| fuel]; [lia |]);
    cbn [wait_loop]; rewrite run_bind; unfold poll; rewrite Hrc.
  - destruct (Nat.ltb_spec (polls s) (lifetime (child env))); [lia |].
    rewrite run_bind. unfold print, ret.
    destruct s. flatten_state. f_equal. f_equal; lia.
  - destruct (Nat.ltb_spec (polls s) (lifetime (child env))); [| lia].
    rewrite run_bind. unfold time_sleep. cbn [naps set_polls].
    rewrite Hcalm. rewrite IH; [| exact Hrc | cbn; lia | lia].
    destruct s. flatten_state. f_equal. f_equal; lia.
Qed.

(** While the child keeps running the loop neither returns nor raises. *)
Lemma wait_loop_still_waiting :
  (forall k, interrupt env k = None) ->
  forall fuel s,
    returncode s = None ->
    polls s + fuel <= lifetime (child env) ->
    wait_loop env fuel s =
      (Hang, set_naps (naps s + fuel) (set_polls (polls s + fuel) s)).
Proof.
  intros Hcalm. induction fuel as [| fuel IH]; intros s Hrc Hn.
  - cbn [wait_loop]. unfold hang. destruct s. flatten_state.
    f_equal. f_equal; lia.
  - cbn [wait_loop]. rewrite run_bind. unfold poll. rewrite Hrc.
    destruct (Nat.ltb_spec (polls s) (lifetime (child env))); [| lia].
    rewrite run_bind. unfold time_sleep. cbn [naps set_polls].
    rewrite Hcalm. rewrite IH; [| exact Hrc | cbn; lia].
    destruct s. flatten_state. f_equal. f_equal; lia.
Qed.

(** An exception delivered during the sleep after the (j+1)-th poll ends
    the loop with that exception. *)
Lemma wait_loop_interrupted e :
  forall j s fuel,
    returncode s = None ->
    polls s + j < lifetime (child env) ->
    (forall i, i < j -> interrupt env (naps s + i) = None) ->
    interrupt env (naps s + j) = Some e ->
    j < fuel ->
    wait_loop env fuel s =
      (Raise e, set_naps (naps s + j) (set_polls (polls s + S j) s)).
Proof.
  induction j as [| j IH]; intros s fuel Hrc Hn Hcalm Hint Hfuel;
    (destruct fuel as [| fuel]; [lia |]);
    cbn [wait_loop]; rewrite run_bind; unfold poll; rewrite Hrc;
    (destruct (Nat.ltb_spec (polls s) (lifetime (child env))); [| lia]);
    rewrite run_bind; unfold time_sleep; cbn [naps set_polls].
  - rewrite Nat.add_0_r in Hint. rewrite Hint.
    destruct s. flatten_state. f_equal. f_equal; lia.
  - pose proof (Hcalm 0 ltac:(lia)) as H0. rewrite Nat.add_0_r in H0.
    rewrite H0.
    rewrite IH; cbn [returncode polls naps set_naps set_polls].
    + destruct s. flatten_state. f_equal. f_equal; lia.
    + exact Hrc.
    + lia.
    + intros i Hi. replace (S (naps s) + i) with (naps s + S i) by lia.
      apply Hcalm. lia.
    + replace (S (naps s) + j) with (naps s + S j) by lia. exact Hint.
    + lia.
Qed.

(** With a child that starts and is still there at the group line, and
    a sink that takes every line, the call reaches its branch on
    [blocking] in the state [launched]. *)
Lemma run_and_stream_launches fuel command blocking s :
  spawn_error env = None ->
  (forall line, logger env line = None) ->
  reaped_at_launch env = false ->
  run_and_stream env fuel command blocking s =
    (if negb blocking
     then ret (inl (mkPopen (child_pid (child env))))
     else (r <- blocking_branch env fuel (mkPopen (child_pid (child env)))
                  (Some (child_pid (child env))) ;;
           ret (inr r)))
      (Scenarios.launched env command s).
Proof.
  intros Hspawn Hquiet Hthere.
  unfold run_and_stream. rewrite run_bind, (run_log_quiet env Hquiet).
  cbv beta iota. rewrite run_bind. unfold subprocess_Popen. rewrite Hspawn.
  cbv beta iota. rewrite run_bind. cbv beta iota.
  rewrite run_thread_start_getpgid by reflexivity. rewrite Hthere.
  rewrite run_bind, (run_log_quiet env Hquiet). cbv beta iota.
  reflexivity.
Qed.

(** A child that a poll of the calling thread finds running has not been
    collected before the group line. *)
Lemma running_child_not_reaped :
  0 < lifetime (child env) -> reaped_at_launch env = false.
Proof.
  intros Hlife. unfold reaped_at_launch.
  destruct (Nat.eqb_spec (lifetime (child env)) 0) as [H0 | _]; [lia |].
  apply andb_false_r.
Qed.

(** X7.  A non-blocking call on a child that is still there at the
    group line returns the process object at once: it does not poll the
    child, does not sleep, prints nothing, sends no signal and leaves the
    terminate flag unset, whatever the fuel.  On a child that the worker
    has collected before that line it raises the ProcessLookupError of
    [os.getpgid] instead of returning the object. *)
Theorem run_and_stream_non_blocking_returns_handle fuel command s :
  spawn_error env = None ->
  (forall line, logger env line = None) ->
  (reaped_at_launch env = false ->
   exists s',
     run_and_stream env fuel command false s =
       (Ret (inl (mkPopen (child_pid (child env)))), s') /\
     returncode s' = None /\ polls s' = 0 /\ naps s' = naps s /\
     signalled s' = signalled s /\ terminate_flag s' = false /\
     printed s' = printed s) /\
  (reaped_at_launch env = true ->
   fst (run_and_stream env fuel command false s) =
     Raise process_lookup_error).
Proof.
  intros Hspawn Hquiet. split.
  - intros Hthere. rewrite run_and_stream_launches by assumption.
    cbn [negb]. eexists. split; [reflexivity |].
    destruct s. unfold Scenarios.launched. flatten_state.
    now repeat split.
  - intros Hgone.
    apply (run_and_stream_reaped env fuel command false s Hspawn Hquiet Hgone).
Qed.

(** X8.  When the child cannot be started the exception of
    [subprocess.Popen] comes out of the call as it is, in both modes; the
    launch line has been logged and nothing else has happened. *)
Theorem run_and_stream_spawn_failure fuel command blocking s e :
  spawn_error env = Some e ->
  logger env (Scenarios.delivered env None ("launch: " +++ command)) = None ->
  run_and_stream env fuel command blocking s =
    (Raise e,
     set_logged
       (logged s ++ [Scenarios.delivered env None ("launch: " +++ command)])
       s).
Proof.
  intros Hspawn Hlog.
  unfold run_and_stream. rewrite run_bind. unfold log at 1.
  change (if remote env then "[" +++ str_of_opt None +++ "]"
                             +++ "launch: " +++ command
          else "launch: " +++ command)
    with (Scenarios.delivered env None ("launch: " +++ command)).
  rewrite Hlog. cbv beta iota. rewrite run_bind.
  unfold subprocess_Popen. rewrite Hspawn. reflexivity.
Qed.

(** X9.  The blocking wait has no timeout of its own: on a child that is
    still there at the group line (as is every child that a poll finds
    running), and while it is still running at every poll, the call has
    neither returned nor raised; it has slept once per poll, sent no
    signal and not yet set the terminate flag. *)
Theorem run_and_stream_waits_while_child_runs fuel command s :
  undisturbed env ->
  reaped_at_launch env = false ->
  fuel <= lifetime (child env) ->
  exists s',
    run_and_stream env fuel command true s = (Hang, s') /\
    naps s' = naps s + fuel /\
    signalled s' = signalled s /\
    terminate_flag s' = false /\
    returncode s' = None.
Proof.
  intros (Hspawn & Hquiet & Hcalm) Hthere Hfuel.
  rewrite run_and_stream_launches by assumption. cbn [negb].
  rewrite run_bind.
  unfold blocking_branch, try_finally, try_except, blocking_body.
  rewrite run_bind, (wait_loop_still_waiting Hcalm);
    [| reflexivity | exact Hfuel].
  cbv beta iota. eexists. split; [reflexivity |].
  destruct s. unfold Scenarios.launched. flatten_state. now repeat split.
Qed.

(** X10.  An exception that is not an [Exception] (KeyboardInterrupt,
    SystemExit), delivered during a sleep while the child is running,
    skips the [except] block: the final block sets the flag, sends
    SIGTERM to the child's group, waits for the child, and the call
    raises that same exception. *)
Theorem run_and_stream_interrupt_terminates_group j c e fuel command s :
  spawn_error env = None ->
  (forall line, logger env line = None) ->
  is_Exception e = false ->
  (forall i, i < j -> interrupt env (naps s + i) = None) ->
  interrupt env (naps s + j) = Some e ->
  S j < lifetime (child env) ->
  on_sigterm (child env) = Some c ->
  j < fuel ->
  exists s',
    run_and_stream env fuel command true s = (Raise e, s') /\
    signalled s' =
      signalled s ++ [(os_getpgid (child_pid (child env)), SIGTERM)] /\
    returncode s' = Some c /\
    terminate_flag s' = true /\
    printed s' = printed s ++ ["Stopping subprocess..."; "Subprocess stopped."].
Proof.
  intros Hspawn Hquiet Hbase Hcalm Hint Hlife Hterm Hfuel.
  rewrite run_and_stream_launches
    by (try assumption; apply running_child_not_reaped; lia).
  cbn [negb].
  rewrite run_bind.
  unfold blocking_branch, try_finally, try_except, blocking_body.
  rewrite run_bind, (wait_loop_interrupted e j);
    [| reflexivity | cbn; lia | exact Hcalm | exact Hint | exact Hfuel].
  cbv beta iota. rewrite Hbase.
  unfold blocking_cleanup. rewrite run_bind. cbv beta iota.
  rewrite run_bind. unfold stop_process. rewrite run_bind. unfold poll.
  destruct s. unfold Scenarios.launched. flatten_state. cbn [Nat.add].
  destruct (Nat.ltb_spec (S j) (lifetime (child env))) as [_ | Hge]; [| lia].
  rewrite run_bind. unfold print at 1. cbv beta iota.
  rewrite run_bind. unfold os_killpg. cbv beta iota.
  rewrite run_bind. unfold wait. flatten_state. rewrite Hterm.
  unfold print. cbv beta iota.
  rewrite (run_log_quiet env Hquiet). cbv beta iota.
  eexists. split; [reflexivity |]. flatten_state.
  repeat split. now rewrite <- app_assoc.
Qed.

(** X11.  [stop_process] does not escalate: on a running child that
    ignores SIGTERM it sends that one SIGTERM to the group and then stays
    in [process.wait()]; no second signal and no SIGKILL follow. *)
Theorem stop_process_does_not_escalate p s :
  still_running env s = true ->
  on_sigterm (child env) = None ->
  exists s',
    stop_process env (Some p) s = (Hang, s') /\
    signalled s' = signalled s ++ [(os_getpgid (pid p), SIGTERM)] /\
    printed s' = printed s ++ ["Stopping subprocess..."] /\
    returncode s' = None.
Proof.
  unfold still_running. intros Hrun Hdeaf.
  destruct (returncode s) as [c |] eqn:Hrc; [discriminate |].
  unfold stop_process. rewrite run_bind. unfold poll. rewrite Hrc, Hrun.
  rewrite run_bind. unfold print at 1. cbv beta iota.
  rewrite run_bind. unfold os_killpg. cbv beta iota.
  rewrite run_bind. unfold wait.
  destruct s. flatten_state. cbn [returncode] in Hrc. rewrite Hrc, Hdeaf.
  eexists. split; [reflexivity |]. flatten_state. now repeat split.
Qed.

(** X12.  What an undisturbed blocking run does in the calling thread,
    on a child that is still there at the group line: one sleep per poll
    that found the child running, one console line with the exit code, the
    terminate flag set, the return code stored, and no signal: the final
    block finds nothing to stop. *)
Theorem run_and_stream_undisturbed_trace fuel command s :
  undisturbed env ->
  reaped_at_launch env = false ->
  lifetime (child env) < fuel ->
  exists s',
    run_and_stream env fuel command true s =
      (Ret (inr (mkResult (exit_status (child env) =? 0)%Z
                          (Some (exit_status (child env)))
                          (tail_seen env) None None)), s') /\
    printed s' =
      printed s ++
        ["Process finished with code "
           +++ str_of_Z (exit_status (child env))] /\
    naps s' = naps s + lifetime (child env) /\
    terminate_flag s' = true /\
    returncode s' = Some (exit_status (child env)) /\
    signalled s' = signalled s.
Proof.
  intros (Hspawn & Hquiet & Hcalm) Hthere Hfuel.
  rewrite run_and_stream_launches by assumption. cbn [negb].
  rewrite run_bind.
  unfold blocking_branch, try_finally, try_except, blocking_body.
  rewrite run_bind, (wait_loop_exits_state Hcalm (lifetime (child env)));
    [| reflexivity | reflexivity | exact Hfuel].
  cbv beta iota.
  rewrite run_bind, (run_log_quiet env Hquiet). cbv beta iota.
  rewrite run_bind. unfold observe_worker at 1. cbv beta iota zeta.
  rewrite run_bind. unfold assign_stdout_content at 1. cbv beta iota.
  rewrite run_bind. unfold load_stdout_content at 1.
  destruct s. unfold Scenarios.launched. flatten_state.
  unfold ret at 1.
  unfold blocking_cleanup. rewrite run_bind. cbv beta iota.
  rewrite run_bind. unfold stop_process. rewrite run_bind. unfold poll.
  flatten_state. unfold ret at 1. cbv beta iota.
  rewrite (run_log_quiet env Hquiet). cbv beta iota.
  eexists. split; [reflexivity |]. flatten_state.
  now repeat split.
Qed.

(** X13.  When an undisturbed blocking call on a child that is still
    there at the group line returns, the [stdout] entry of the result is
    the concatenation of the last lines, at most 10, among those the
    worker had appended when the deque was read; when the worker was done
    by then, of the last lines, at most 10, of the child's whole
    output. *)
Theorem run_and_stream_stdout_is_tail fuel command s :
  undisturbed env ->
  reaped_at_launch env = false ->
  Forall (fun l => nonempty l = true) (output (child env)) ->
  lifetime (child env) < fuel ->
  exists res s',
    run_and_stream env fuel command true s = (Ret (inr res), s') /\
    stdout res =
      join (Deque.last_k Deque.maxlen
              (firstn (appends_seen env) (output (child env)))) /\
    (length (output (child env)) <= appends_seen env ->
     stdout res = join (Deque.last_k Deque.maxlen (output (child env)))).
Proof.
  intros Hcalm Hthere Hne Hfuel.
  destruct (run_and_stream_undisturbed env fuel command s Hcalm Hthere Hfuel)
    as (s' & Hrun & _).
  destruct Hcalm as (_ & Hquiet & _).
  assert (Htail : tail_seen env =
            join (Deque.last_k Deque.maxlen
                    (firstn (appends_seen env) (output (child env))))).
  { unfold tail_seen, worker_end.
    rewrite stream_output_appends_all by assumption.
    now rewrite after_appends_last_k. }
  eexists. exists s'. split; [exact Hrun |]. cbn [stdout].
  split; [exact Htail |].
  intros Hdone. rewrite Htail. now rewrite firstn_all2.
Qed.

End RunnerExtras.

(** ** The worker thread: what reaches the logging sink *)

Section WorkerExtras.
Import Runner.

Variable env : Env.
Hypothesis Hquiet : forall line, logger env line = None.




End WorkerExtras.

(** ** run_subprocess *)

Section SubprocessFacts.
Import Subprocess.

Variable env : Env.

(** The call, case by case. *)
Lemma run_subprocess_cases command s :
  run_subprocess env command s =
    let shown := s ++ ["Running command: " +++ String.concat " " command] in
    match run_outcome env command with
    | inl e => if is_Exception e then (Ret false, shown) else (Raise e, shown)
    | inr code =>
        if (code =? 0)%Z then (Ret true, shown)
        else (Ret false,
              shown ++ ["Command failed with return code " +++ str_of_Z code])
    end.
Proof.
  unfold run_subprocess, bind, print, try_except, subprocess_run.
  destruct (run_outcome env command) as [e | code].
  - now destruct (is_Exception e).
  - now destruct (code =? 0)%Z.
Qed.

(** X15.  [run_subprocess] returns True exactly when [subprocess.run]
    gave return code 0.  It never raises an [Exception]: when
    [subprocess.run] raises one (the program is missing, the command list
    is empty) the call returns False, and it does so without printing
    any message beyond the "Running command" line; only an exception
    outside [Exception] comes out, unchanged. *)
Theorem run_subprocess_true_iff_zero command s :
  (forall b s',
     run_subprocess env command s = (Ret b, s') ->
     (b = true <-> run_outcome env command = inr 0%Z)) /\
  (forall e s',
     run_subprocess env command s = (Raise e, s') ->
     is_Exception e = false /\ run_outcome env command = inl e) /\
  fst (run_subprocess env command s) <> Hang /\
  (forall e,
     run_outcome env command = inl e -> is_Exception e = true ->
     run_subprocess env command s =
       (Ret false,
        s ++ ["Running command: " +++ String.concat " " command])).
Proof.
  rewrite run_subprocess_cases. cbv zeta.
  destruct (run_outcome env command) as [e | code].
  - destruct (is_Exception e) eqn:He.
    + split; [| split; [| split]].
      * intros b s' H. inversion H; subst. split; discriminate.
      * intros e' s' H. discriminate H.
      * discriminate.
      * intros e' H He'. reflexivity.
    + split; [| split; [| split]].
      * intros b s' H. discriminate H.
      * intros e' s' H. inversion H; subst. now split.
      * discriminate.
      * intros e' H He'. inversion H; subst. congruence.
  - destruct (Z.eqb_spec code 0) as [-> | Hne].
    + split; [| split; [| split]].
      * intros b s' H. inversion H; subst. now split.
      * intros e' s' H. discriminate H.
      * discriminate.
      * intros e' H. discriminate H.
    + split; [| split; [| split]].
      * intros b s' H. inversion H; subst. split; [discriminate |].
        intros Hz. inversion Hz. contradiction.
      * intros e' s' H. discriminate H.
      * discriminate.
      * intros e' H. discriminate H.
Qed.

End SubprocessFacts.

(** [curl] is not installed: False, and no failure message. *)
Lemma run_subprocess_true_iff_zero_witness :
  Subprocess.run_subprocess Subprocess.no_curl ["curl"; "-f"; "localhost"] [] =
    (Ret false, ["Running command: curl -f localhost"]).
Proof.
  apply (proj2 (proj2 (proj2 (run_subprocess_true_iff_zero
           Subprocess.no_curl ["curl"; "-f"; "localhost"] [])))
           (mkExn OSError "No such file or directory: 'curl'")).
  - reflexivity.
  - reflexivity.
Defined.

(** ** find_free_ports *)

Section PortsFacts.
Import Ports.

Variable env : Env.

Lemma set_add_In port free_ports p :
  In p (set_add port free_ports) <-> p = port \/ In p free_ports.
Proof.
  unfold set_add.
  destruct (existsb (Z.eqb port) free_ports) eqn:Hmem.
  - split; [now right |]. intros [-> | Hin]; [| exact Hin].
    apply existsb_exists in Hmem. destruct Hmem as (q & Hq & Heq).
    apply Z.eqb_eq in Heq. now subst q.
  - rewrite in_app_iff. cbn. split.
    + intros [Hin | [<- | []]]; [now right | now left].
    + intros [-> | Hin]; [right; now left | now left].
Qed.

Lemma set_add_NoDup port free_ports :
  NoDup free_ports -> NoDup (set_add port free_ports).
Proof.
  intros Hnd. unfold set_add.
  destruct (existsb (Z.eqb port) free_ports) eqn:Hmem; [exact Hnd |].
  apply NoDup_app; [exact Hnd | repeat constructor; intros [] |].
  intros p Hin [Heq | []]. subst p.
  assert (Hex : existsb (Z.eqb port) free_ports = true)
    by (apply existsb_exists; exists port;
        split; [exact Hin | apply Z.eqb_refl]).
  congruence.
Qed.

Lemma set_add_length port free_ports :
  length (set_add port free_ports) <= S (length free_ports).
Proof.
  unfold set_add. destruct (existsb (Z.eqb port) free_ports).
  - lia.
  - rewrite length_app. cbn. lia.
Qed.

(** One turn of the loop that opens a socket. *)
Lemma port_loop_turn fuel n free_ports s :
  (Z.of_nat (length free_ports) < n)%Z ->
  port_loop env (S fuel) n free_ports s =
    match socket_at env (opened s) with
    | inl e => (Raise e, mkState (S (opened s)) (S (closed s)))
    | inr port =>
        port_loop env fuel n (set_add port free_ports)
          (mkState (S (opened s)) (S (closed s)))
    end.
Proof.
  intros Hlt. cbn [port_loop].
  destruct (Z.ltb_spec (Z.of_nat (length free_ports)) n); [| lia].
  unfold bind at 1, socket_socket. unfold bind at 1, try_finally.
  unfold bind_and_read_port, close. cbn [opened closed].
  now destruct (socket_at env (opened s)).
Qed.

Lemma port_loop_done fuel n free_ports s :
  (n <= Z.of_nat (length free_ports))%Z ->
  port_loop env (S fuel) n free_ports s = (Ret free_ports, s).
Proof.
  intros Hge. cbn [port_loop].
  now destruct (Z.ltb_spec (Z.of_nat (length free_ports)) n); [lia |].
Qed.

(** What the loop keeps and what it returns. *)
Lemma port_loop_spec n :
  forall fuel free_ports s r s',
    port_loop env fuel n free_ports s = (r, s') ->
    opened s' + closed s = closed s' + opened s /\
    opened s <= opened s' /\
    forall res, r = Ret res ->
      (NoDup free_ports -> NoDup res) /\
      (Z.of_nat (length free_ports) <= n ->
       Z.of_nat (length res) = n)%Z /\
      (n <= Z.of_nat (length free_ports) ->
       res = free_ports /\ s' = s)%Z /\
      (forall p, In p res ->
         In p free_ports \/
         exists k, opened s <= k < opened s' /\ socket_at env k = inr p).
Proof.
  induction fuel as [| fuel IH]; intros free_ports s r s' Hrun.
  - inversion Hrun; subst. repeat split; try lia; discriminate.
  - destruct (Z.ltb_spec (Z.of_nat (length free_ports)) n) as [Hlt | Hge].
    + rewrite port_loop_turn in Hrun by exact Hlt.
      destruct (socket_at env (opened s)) as [e | port] eqn:Hsock.
      * inversion Hrun; subst. cbn. repeat split; try lia; discriminate.
      * apply IH in Hrun. cbn [opened closed] in Hrun.
        destruct Hrun as (Hbal & Hmono & Hres).
        split; [lia |]. split; [lia |].
        intros res Hr. destruct (Hres res Hr) as (Hnd & Hlen & _ & Hin).
        split; [| split; [| split]].
        -- intros Hfp. apply Hnd. now apply set_add_NoDup.
        -- intros _. apply Hlen.
           pose proof (set_add_length port free_ports). lia.
        -- intros Hle. lia.
        -- intros p Hp. destruct (Hin p Hp) as [Hadd | (k & Hk & Hp')].
           ++ apply set_add_In in Hadd. destruct Hadd as [-> | Hfp].
              ** right. exists (opened s). split; [lia | exact Hsock].
              ** now left.
           ++ right. exists k. split; [lia | exact Hp'].
    + rewrite port_loop_done in Hrun by exact Hge.
      inversion Hrun; subst. split; [lia |]. split; [lia |].
      intros res Hr. inversion Hr; subst res.
      repeat split; try tauto. lia.
Qed.

(** X16.  What [find_free_ports] returns holds no port twice and has
    exactly n ports (none for n <= 0, in which case no socket is opened),
    each of them a port the operating system bound one of the sockets of
    this call to. *)
Theorem find_free_ports_returns_distinct_ports fuel n s res s' :
  find_free_ports env fuel n s = (Ret res, s') ->
  NoDup res /\
  length res = Z.to_nat n /\
  (forall p, In p res ->
     exists k, opened s <= k < opened s' /\ socket_at env k = inr p) /\
  ((n <= 0)%Z -> res = [] /\ s' = s).
Proof.
  intros Hrun. apply port_loop_spec in Hrun.
  destruct Hrun as (_ & _ & Hres).
  destruct (Hres res eq_refl) as (Hnd & Hlen & Hnone & Hin).
  cbn [length] in *. split; [apply Hnd; constructor |].
  split; [| split].
  - destruct (Z.le_gt_cases 0 n) as [Hpos | Hneg].
    + specialize (Hlen Hpos). lia.
    + destruct Hnone as [-> _]; [lia |]. cbn. lia.
  - intros p Hp. destruct (Hin p Hp) as [[] | Hk]. exact Hk.
  - intros Hle. apply Hnone. lia.
Qed.

(** X17.  Every socket the call opens is closed again, on every path:
    when it returns, while it is still looping, and when binding a socket
    raises, in which case that exception comes out of the call after the
    socket was closed. *)
Theorem find_free_ports_closes_every_socket fuel n s :
  opened (snd (find_free_ports env fuel n s)) + closed s =
    closed (snd (find_free_ports env fuel n s)) + opened s /\
  (forall e,
     (0 < n)%Z -> socket_at env (opened s) = inl e ->
     find_free_ports env (S fuel) n s =
       (Raise e, mkState (S (opened s)) (S (closed s)))).
Proof.
  split.
  - destruct (find_free_ports env fuel n s) as [r s'] eqn:Hrun.
    apply port_loop_spec in Hrun. cbn [snd]. tauto.
  - intros e Hn Hsock. unfold find_free_ports.
    rewrite port_loop_turn by (cbn; lia). now rewrite Hsock.
Qed.

(** Enough distinct ports among the next [d] sockets end the loop. *)
Lemma port_loop_live n ports :
  NoDup ports ->
  (n <= Z.of_nat (length ports))%Z ->
  forall d free_ports s fuel,
    (forall k, k < d -> exists p, socket_at env (opened s + k) = inr p) ->
    (forall p, In p ports ->
       In p free_ports \/
       exists k, k < d /\ socket_at env (opened s + k) = inr p) ->
    d < fuel ->
    exists res s',
      port_loop env fuel n free_ports s = (Ret res, s') /\
      opened s' <= opened s + d.
Proof.
  intros Hnd Hmany. induction d as [| d IH];
    intros free_ports s fuel Hbind Hports Hfuel;
    (destruct fuel as [| fuel]; [lia |]);
    destruct (Z.ltb_spec (Z.of_nat (length free_ports)) n) as [Hlt | Hge];
    try (rewrite port_loop_done by exact Hge;
         exists free_ports, s; split; [reflexivity | lia]).
  - exfalso.
    assert (Hincl : incl ports free_ports).
    { intros p Hp. destruct (Hports p Hp) as [H | (k & Hk & _)];
        [exact H | lia]. }
    pose proof (NoDup_incl_length Hnd Hincl). lia.
  - rewrite port_loop_turn by exact Hlt.
    destruct (Hbind 0 ltac:(lia)) as (p0 & Hp0).
    rewrite Nat.add_0_r in Hp0. rewrite Hp0.
    destruct (IH (set_add p0 free_ports)
                 (mkState (S (opened s)) (S (closed s))) fuel)
      as (res & s' & Hrun & Hopen).
    + intros k Hk. cbn [opened].
      replace (S (opened s) + k) with (opened s + S k) by lia.
      apply Hbind. lia.
    + intros p Hp. destruct (Hports p Hp) as [Hin | (k & Hk & Hsock)].
      * left. apply set_add_In. now right.
      * destruct k as [| k].
        -- left. apply set_add_In. left.
           rewrite Nat.add_0_r in Hsock. congruence.
        -- right. exists k. split; [lia |]. cbn [opened].
           replace (S (opened s) + k) with (opened s + S k) by lia.
           exact Hsock.
    + lia.
    + exists res, s'. split; [exact Hrun |]. cbn [opened] in Hopen. lia.
Qed.

(** X18.  The call returns as soon as the operating system has handed
    out n distinct ports: if the next d sockets can all be bound and at
    least n different ports are among theirs, it returns after opening at
    most d sockets; a port handed out twice only costs one more socket. *)
Theorem find_free_ports_terminates n d ports fuel s :
  NoDup ports ->
  (n <= Z.of_nat (length ports))%Z ->
  (forall k, k < d -> exists p, socket_at env (opened s + k) = inr p) ->
  (forall p, In p ports ->
     exists k, k < d /\ socket_at env (opened s + k) = inr p) ->
  d < fuel ->
  exists res s',
    find_free_ports env fuel n s = (Ret res, s') /\
    opened s' <= opened s + d.
Proof.
  intros Hnd Hmany Hbind Hports Hfuel. unfold find_free_ports.
  apply (port_loop_live n ports Hnd Hmany d); try assumption.
  intros p Hp. right. now apply Hports.
Qed.

End PortsFacts.

(** Three ports from an operating system that repeats 40001: four
    sockets, three distinct ports. *)
Lemma find_free_ports_returns_distinct_ports_witness :
  NoDup [40000; 40001; 40002]%Z /\
  length [40000; 40001; 40002]%Z = Z.to_nat 3 /\
  (forall p, In p [40000; 40001; 40002]%Z ->
     exists k, Ports.opened Ports.none_open <= k < Ports.opened (Ports.mkState 4 4) /\
               Ports.socket_at Ports.one_repeat k = inr p) /\
  ((3 <= 0)%Z ->
   [40000; 40001; 40002]%Z = [] /\ Ports.mkState 4 4 = Ports.none_open).
Proof.
  apply (find_free_ports_returns_distinct_ports
           Ports.one_repeat 10 3 Ports.none_open).
  reflexivity.
Defined.

Lemma find_free_ports_terminates_witness :
  exists res s',
    Ports.find_free_ports Ports.one_repeat 10 3 Ports.none_open =
      (Ret res, s') /\
    Ports.opened s' <= Ports.opened Ports.none_open + 4.
Proof.
  apply (find_free_ports_terminates
           Ports.one_repeat 3 4 [40000; 40001; 40002]%Z 10 Ports.none_open).
  - repeat constructor; cbn; intuition discriminate.
  - cbn. lia.
  - intros k Hk. eexists. reflexivity.
  - intros p [<- | [<- | [<- | []]]].
    + exists 0. split; [lia | reflexivity].
    + exists 1. split; [lia | reflexivity].
    + exists 3. split; [lia | reflexivity].
  - lia.
Defined.

(** ** Sample runs *)

(** The failing bind of the second socket: the OSError comes out and the
    socket is closed. *)
Lemma find_free_ports_closes_every_socket_witness :
  Ports.find_free_ports Ports.second_bind_fails 1 5 (Ports.mkState 1 1) =
    (Raise (mkExn OSError "Address already in use"), Ports.mkState 2 2).
Proof.
  apply (proj2 (find_free_ports_closes_every_socket
                  Ports.second_bind_fails 0 5 (Ports.mkState 1 1))).
  - lia.
  - reflexivity.
Defined.

(** A non-blocking call on a child that runs for a while, and one on a
    child that is gone at the group line. *)
Lemma run_and_stream_non_blocking_returns_handle_witness :
  (exists s',
     Runner.run_and_stream Scenarios.remote_run 0 "sleep 2" false
       Runner.fresh = (Ret (inl (Runner.mkPopen 4321)), s') /\
     Runner.returncode s' = None /\ Runner.polls s' = 0 /\
     Runner.naps s' = 0 /\ Runner.signalled s' = [] /\
     Runner.terminate_flag s' = false /\ Runner.printed s' = []) /\
  fst (Runner.run_and_stream
         (Runner.collected_early (Runner.printer [] 0 0)) 0 "true" false
         Runner.fresh) = Raise Runner.process_lookup_error.
Proof.
  split.
  - apply (run_and_stream_non_blocking_returns_handle
             Scenarios.remote_run 0 "sleep 2" Runner.fresh).
    + reflexivity.
    + intros line. reflexivity.
    + reflexivity.
  - apply (run_and_stream_non_blocking_returns_handle
             (Runner.collected_early (Runner.printer [] 0 0)) 0 "true"
             Runner.fresh).
    + reflexivity.
    + intros line. reflexivity.
    + reflexivity.
Defined.

(** The shell cannot be forked. *)
Lemma run_and_stream_spawn_failure_witness :
  Runner.run_and_stream Scenarios.spawn_fails 5 "true" true Runner.fresh =
    (Raise Scenarios.fork_failed,
     Runner.set_logged ([] ++ ["launch: true"]) Runner.fresh).
Proof.
  apply (run_and_stream_spawn_failure
           Scenarios.spawn_fails 5 "true" true Runner.fresh).
  - reflexivity.
  - reflexivity.
Defined.

(** A child seen running 100 times, followed for 7 polls. *)
Lemma run_and_stream_waits_while_child_runs_witness :
  exists s',
    Runner.run_and_stream (Runner.calm (Runner.printer [] 100 0) 0) 7
      "sleep 100" true Runner.fresh = (Hang, s') /\
    Runner.naps s' = 0 + 7 /\
    Runner.signalled s' = [] /\
    Runner.terminate_flag s' = false /\
    Runner.returncode s' = None.
Proof.
  apply (run_and_stream_waits_while_child_runs
           (Runner.calm (Runner.printer [] 100 0) 0) 7 "sleep 100"
           Runner.fresh).
  - repeat split.
  - reflexivity.
  - cbn. lia.
Defined.

(** A child collected before the group line: the call is over before its
    first poll, also when the model follows no poll at all. *)
Lemma run_and_stream_collected_child_never_waits :
  fst (Runner.run_and_stream
         (Runner.collected_early (Runner.printer [] 0 0)) 0 "true" true
         Runner.fresh) = Raise Runner.process_lookup_error.
Proof. vm_compute. reflexivity. Qed.

(** Ctrl-C during the second sleep. *)
Lemma run_and_stream_interrupt_terminates_group_witness :
  exists s',
    Runner.run_and_stream Scenarios.ctrl_c_in_second_sleep 10 "sleep 100"
      true Runner.fresh = (Raise Scenarios.ctrl_c, s') /\
    Runner.signalled s' = [] ++ [(4321%Z, Runner.SIGTERM)] /\
    Runner.returncode s' = Some (-15)%Z /\
    Runner.terminate_flag s' = true /\
    Runner.printed s' =
      [] ++ ["Stopping subprocess..."; "Subprocess stopped."].
Proof.
  apply (run_and_stream_interrupt_terminates_group
           Scenarios.ctrl_c_in_second_sleep 1 (-15)%Z Scenarios.ctrl_c 10
           "sleep 100" Runner.fresh).
  - reflexivity.
  - intros line. reflexivity.
  - reflexivity.
  - intros i Hi. destruct i as [| i]; [reflexivity | lia].
  - reflexivity.
  - cbn. lia.
  - reflexivity.
  - lia.
Defined.

(** A running child that ignores SIGTERM. *)
Lemma stop_process_does_not_escalate_witness :
  exists s',
    Runner.stop_process Scenarios.deaf_child (Some (Runner.mkPopen 4321))
      Runner.fresh = (Hang, s') /\
    Runner.signalled s' = [] ++ [(4321%Z, Runner.SIGTERM)] /\
    Runner.printed s' = [] ++ ["Stopping subprocess..."] /\
    Runner.returncode s' = None.
Proof.
  apply (stop_process_does_not_escalate
           Scenarios.deaf_child (Runner.mkPopen 4321) Runner.fresh).
  - reflexivity.
  - reflexivity.
Defined.

(** A remote logger and a child that is seen running twice. *)
Lemma run_and_stream_undisturbed_trace_witness :
  exists s',
    Runner.run_and_stream Scenarios.remote_run 5 "sleep 2" true
      Runner.fresh =
      (Ret (inr (Runner.mkResult true (Some 0%Z) "" None None)), s') /\
    Runner.printed s' = [] ++ ["Process finished with code 0"] /\
    Runner.naps s' = 0 + 2 /\
    Runner.terminate_flag s' = true /\
    Runner.returncode s' = Some 0%Z /\
    Runner.signalled s' = [].
Proof.
  apply (run_and_stream_undisturbed_trace
           Scenarios.remote_run 5 "sleep 2" Runner.fresh).
  - repeat split.
  - reflexivity.
  - cbn. lia.
Defined.

(** Twelve lines, all appended before the deque is read: the result
    carries the last ten. *)
Lemma run_and_stream_stdout_is_tail_witness :
  exists res s',
    Runner.run_and_stream Scenarios.chatty 5 "seq 12" true Runner.fresh =
      (Ret (inr res), s') /\
    Runner.stdout res =
      join (Deque.last_k Deque.maxlen
              (firstn 12 Scenarios.twelve_lines)) /\
    (length Scenarios.twelve_lines <= 12 ->
     Runner.stdout res =
       join (Deque.last_k Deque.maxlen Scenarios.twelve_lines)).
Proof.
  apply (run_and_stream_stdout_is_tail
           Scenarios.chatty 5 "seq 12" Runner.fresh).
  - repeat split.
  - reflexivity.
  - repeat constructor.
  - cbn. lia.
Defined.


(** ** create_symlinks *)

Section SymlinkStrings.
Import Symlinks.

















End SymlinkStrings.

Section SymlinkFacts.
Import Symlinks.

Lemma lookup_absent name d :
  lookup name d = None <-> ~ In name (map fst d).
Proof.
  unfold lookup. induction d as [| [n e] d IH]; cbn.
  - tauto.
  - destruct (String.eqb_spec n name) as [-> | Hne]; cbn.
    + split; [discriminate | intros H; exfalso; apply H; now left].
    + rewrite IH. split.
      * intros H [Heq | Hin]; [congruence | now apply H].
      * intros H Hin. apply H. now right.
Qed.

Lemma lookup_app name d d' :
  lookup name d = None -> lookup name (d ++ d') = lookup name d'.
Proof.
  unfold lookup. induction d as [| [n e] d IH]; cbn; [reflexivity |].
  destruct (String.eqb n name); cbn; [discriminate | exact IH].
Qed.

Lemma lookup_without_same name d : lookup name (without name d) = None.
Proof.
  apply lookup_absent. unfold without. intros Hin.
  apply in_map_iff in Hin. destruct Hin as ([n e] & Heq & Hin).
  apply filter_In in Hin. destruct Hin as [_ Hneq]. cbn in *. subst n.
  now rewrite String.eqb_refl in Hneq.
Qed.

Lemma lookup_without_other name other d :
  name <> other -> lookup name (without other d) = lookup name d.
Proof.
  intros Hne. unfold lookup, without.
  induction d as [| [n e] d IH]; cbn; [reflexivity |].
  destruct (String.eqb_spec n other) as [-> | Hno]; cbn.
  - destruct (String.eqb_spec other name); [congruence | exact IH].
  - destruct (String.eqb n name); [reflexivity | exact IH].
Qed.

Lemma without_absent name d : lookup name d = None -> without name d = d.
Proof.
  unfold lookup, without. induction d as [| [n e] d IH]; cbn; [reflexivity |].
  destruct (String.eqb n name); cbn; [discriminate |].
  intros H. now rewrite IH.
Qed.


(** One step of the comprehension. *)
Lemma indices_cons cat n names :
  indices cat (n :: names) =
    if matches cat n
       && (String.eqb (suffix n) ".err" || String.eqb (suffix n) ".out")
    then match int_of_field (last_field (stem n)) with
         | None => inl (invalid_literal (last_field (stem n)))
         | Some i => match indices cat names with
                     | inl e => inl e
                     | inr l => inr (i :: l)
                     end
         end
    else indices cat names.
Proof. reflexivity. Qed.








Lemma err_is_not_out a : a +++ ".err" <> a +++ ".out".
Proof. induction a as [| x a IH]; cbn; [discriminate | congruence]. Qed.

Lemma lookup_app_gen name d d' :
  lookup name (d ++ d') =
    match lookup name d with
    | Some e => Some e
    | None => lookup name d'
    end.
Proof.
  unfold lookup. induction d as [| [n e] d IH]; cbn; [reflexivity |].
  destruct (String.eqb n name); cbn; [reflexivity | exact IH].
Qed.

Lemma without_app name a b :
  without name (a ++ b) = without name a ++ without name b.
Proof. unfold without. apply filter_app. Qed.

(** The replace branch, step by step. *)
Lemma remove_existing_symlinks_run prefix d :
  remove_existing_symlinks prefix d =
    (Ret tt,
     let d1 := match lookup (prefix +++ ".err") d with
               | Some (Symlink _) => without (prefix +++ ".err") d
               | _ => d
               end in
     match lookup (prefix +++ ".out") d1 with
     | Some (Symlink _) => without (prefix +++ ".out") d1
     | _ => d1
     end).
Proof.
  unfold remove_existing_symlinks. cbn [for_each].
  unfold bind, is_symlink, unlink, ret. cbv zeta.
  destruct (lookup (prefix +++ ".err") d) as [[t |] |];
    match goal with
    | |- context [lookup (prefix +++ ".out") ?x] =>
        destruct (lookup (prefix +++ ".out") x) as [[t' |] |]
    end; reflexivity.
Qed.

(** The two links of one call, made in a directory that has neither
    name. *)
Lemma make_links base stderr stdout d :
  lookup (base +++ ".err") d = None ->
  lookup (base +++ ".out") d = None ->
  (symlink_to (base +++ ".err") stderr ;;
   symlink_to (base +++ ".out") stdout) d =
    (Ret tt,
     d ++ [(base +++ ".err", Symlink stderr);
           (base +++ ".out", Symlink stdout)]).
Proof.
  intros Herr Hout. unfold bind, symlink_to. rewrite Herr.
  rewrite lookup_app by exact Hout.
  unfold lookup. cbn [find fst].
  destruct (String.eqb_spec (base +++ ".err") (base +++ ".out")) as [Heq | _].
  - now apply err_is_not_out in Heq.
  - cbn. now rewrite <- app_assoc.
Qed.



Lemma indices_error_class cat names e :
  indices cat names = inl e -> cls e = ValueError.
Proof.
  induction names as [| n names IH]; [discriminate |].
  rewrite indices_cons.
  destruct (matches cat n && _); [| exact IH].
  destruct (int_of_field (last_field (stem n))).
  - destruct (indices cat names) as [e' | l'];
      [intros H; inversion H; subst; now apply IH | discriminate].
  - intros H. inversion H. reflexivity.
Qed.

Lemma indices_raises cat names name :
  In name names ->
  matches cat name = true ->
  (String.eqb (suffix name) ".err" || String.eqb (suffix name) ".out") = true ->
  int_of_field (last_field (stem name)) = None ->
  exists e, indices cat names = inl e.
Proof.
  intros Hin Hm Hs Hbad.
  induction names as [| n names IH]; [contradiction |].
  rewrite indices_cons. destruct Hin as [-> | Hin].
  - rewrite Hm, Hs, Hbad. cbn [andb]. eauto.
  - destruct (IH Hin) as (e & He). rewrite He.
    destruct (matches cat n && _); [| eauto].
    destruct (int_of_field (last_field (stem n))); eauto.
Qed.

(** X20.  With [increment_index], one file of the category whose name
    ends in .err or .out and whose last field between "_" and the
    extension is no integer makes the call raise ValueError, before
    anything in the directory is touched. *)
Theorem create_symlinks_rejects_non_numeric_index
    cat stderr stdout d name :
  plain cat = true ->
  In name (map fst d) ->
  matches cat name = true ->
  (String.eqb (suffix name) ".err" || String.eqb (suffix name) ".out") = true ->
  int_of_field (last_field (stem name)) = None ->
  exists e,
    create_symlinks cat stderr stdout true d = (Raise e, d) /\
    cls e = ValueError.
Proof.
  intros _ Hin Hm Hs Hbad.
  destruct (indices_raises cat _ name Hin Hm Hs Hbad) as (e & He).
  exists e. split; [| now apply (indices_error_class cat (map fst d))].
  unfold create_symlinks. unfold bind at 1. unfold bind at 1.
  unfold get_next_index. now rewrite He.
Qed.

(** X21.  Without [increment_index], when neither link name is taken by
    something that is no symlink, the call replaces the links: whatever
    symlinks had those names are gone, the two new links are there, every
    other entry is as before; and a second call with the same arguments
    changes nothing. *)
Theorem create_symlinks_replaces_links cat stderr stdout d :
  plain cat = true ->
  lookup (cat +++ ".err") d <> Some Other ->
  lookup (cat +++ ".out") d <> Some Other ->
  let d' :=
    without (cat +++ ".out") (without (cat +++ ".err") d)
      ++ [(cat +++ ".err", Symlink stderr);
          (cat +++ ".out", Symlink stdout)] in
  create_symlinks cat stderr stdout false d = (Ret tt, d') /\
  create_symlinks cat stderr stdout false d' = (Ret tt, d') /\
  (forall name,
     name <> cat +++ ".err" -> name <> cat +++ ".out" ->
     lookup name d' = lookup name d).
Proof.
  intros _.
  assert (Hne : cat +++ ".out" <> cat +++ ".err")
    by (intros H; symmetry in H; now apply err_is_not_out in H).
  assert (Hrun : forall x,
    lookup (cat +++ ".err") x <> Some Other ->
    lookup (cat +++ ".out") x <> Some Other ->
    create_symlinks cat stderr stdout false x =
      (Ret tt,
       without (cat +++ ".out") (without (cat +++ ".err") x)
         ++ [(cat +++ ".err", Symlink stderr);
             (cat +++ ".out", Symlink stdout)])).
  { intros x Herr Hout.
    unfold create_symlinks. unfold bind at 1. unfold bind at 1.
    rewrite remove_existing_symlinks_run. cbv zeta. unfold ret.
    assert (H1 : match lookup (cat +++ ".err") x with
                 | Some (Symlink _) => without (cat +++ ".err") x
                 | _ => x
                 end = without (cat +++ ".err") x).
    { destruct (lookup (cat +++ ".err") x) as [[t |] |] eqn:E;
        [reflexivity | congruence | now rewrite without_absent]. }
    rewrite H1.
    assert (H2 : match lookup (cat +++ ".out") (without (cat +++ ".err") x)
                 with
                 | Some (Symlink _) =>
                     without (cat +++ ".out") (without (cat +++ ".err") x)
                 | _ => without (cat +++ ".err") x
                 end
                 = without (cat +++ ".out") (without (cat +++ ".err") x)).
    { rewrite (lookup_without_other _ _ x Hne).
      destruct (lookup (cat +++ ".out") x) as [[t |] |] eqn:E;
        [reflexivity | congruence |].
      symmetry. apply without_absent.
      now rewrite (lookup_without_other _ _ x Hne). }
    rewrite H2. apply make_links.
    - rewrite lookup_without_other by (intros H; now apply Hne).
      apply lookup_without_same.
    - apply lookup_without_same. }
  intros Herr Hout d'. split; [now apply Hrun |]. split.
  - rewrite Hrun.
    + f_equal. unfold d'. rewrite !without_app.
      assert (Hw1 :
        without (cat +++ ".err")
          (without (cat +++ ".out") (without (cat +++ ".err") d)) =
        without (cat +++ ".out") (without (cat +++ ".err") d)).
      { apply without_absent.
        rewrite lookup_without_other by (intros H; now apply Hne).
        apply lookup_without_same. }
      rewrite Hw1.
      assert (Hw2 :
        without (cat +++ ".out")
          (without (cat +++ ".out") (without (cat +++ ".err") d)) =
        without (cat +++ ".out") (without (cat +++ ".err") d)).
      { apply without_absent. apply lookup_without_same. }
      rewrite Hw2.
      assert (Hw3 :
        without (cat +++ ".out")
          (without (cat +++ ".err")
             [(cat +++ ".err", Symlink stderr);
              (cat +++ ".out", Symlink stdout)]) = []).
      { unfold without. cbn [filter fst].
        rewrite String.eqb_refl. cbn [negb].
        destruct (String.eqb_spec (cat +++ ".out") (cat +++ ".err"));
          [contradiction |].
        cbn [negb filter fst]. now rewrite String.eqb_refl. }
      rewrite Hw3. now rewrite app_nil_r.
    + unfold d'. rewrite lookup_app.
      * unfold lookup. cbn [find fst]. rewrite String.eqb_refl.
        discriminate.
      * rewrite lookup_without_other by (intros H; now apply Hne).
        apply lookup_without_same.
    + unfold d'. rewrite lookup_app.
      * unfold lookup. cbn [find fst].
        destruct (String.eqb_spec (cat +++ ".err") (cat +++ ".out"));
          [now apply err_is_not_out in e |].
        rewrite String.eqb_refl. discriminate.
      * apply lookup_without_same.
  - intros name Hn1 Hn2. unfold d'. rewrite lookup_app_gen.
    rewrite (lookup_without_other name (cat +++ ".out") _ Hn2).
    rewrite (lookup_without_other name (cat +++ ".err") _ Hn1).
    destruct (lookup name d) as [e |]; [reflexivity |].
    unfold lookup. cbn [find fst].
    destruct (String.eqb_spec (cat +++ ".err") name); [congruence |].
    destruct (String.eqb_spec (cat +++ ".out") name); [congruence |].
    reflexivity.
Qed.

(** X22.  Without [increment_index], a file that is no symlink under the
    name of the stderr link stops the call with FileExistsError; by then
    an old stdout symlink has already been removed, and it is not put
    back. *)
Theorem create_symlinks_blocked_by_file cat stderr stdout d :
  plain cat = true ->
  lookup (cat +++ ".err") d = Some Other ->
  create_symlinks cat stderr stdout false d =
    (Raise (file_exists (cat +++ ".err")),
     match lookup (cat +++ ".out") d with
     | Some (Symlink _) => without (cat +++ ".out") d
     | _ => d
     end) /\
  cls (file_exists (cat +++ ".err")) = OSError.
Proof.
  intros _ Herr. split; [| reflexivity].
  assert (Hne : cat +++ ".err" <> cat +++ ".out") by apply err_is_not_out.
  unfold create_symlinks. unfold bind at 1. unfold bind at 1.
  rewrite remove_existing_symlinks_run. cbv zeta. rewrite Herr.
  unfold ret, bind, symlink_to.
  destruct (lookup (cat +++ ".out") d) as [[t |] |].
  - rewrite (lookup_without_other _ _ d Hne), Herr. reflexivity.
  - now rewrite Herr.
  - now rewrite Herr.
Qed.


End SymlinkFacts.


(** The file train_final.out has no number. *)
Lemma create_symlinks_rejects_non_numeric_index_witness :
  exists e,
    Symlinks.create_symlinks "train" "/logs/13.err" "/logs/13.out" true
      Symlinks.with_stray_file = (Raise e, Symlinks.with_stray_file) /\
    cls e = ValueError.
Proof.
  apply (create_symlinks_rejects_non_numeric_index
           "train" "/logs/13.err" "/logs/13.out" Symlinks.with_stray_file
           "train_final.out").
  - reflexivity.
  - right. left. reflexivity.
  - reflexivity.
  - reflexivity.
  - reflexivity.
Defined.

(** The links of an earlier run are replaced, notes.txt stays. *)
Lemma create_symlinks_replaces_links_witness :
  Symlinks.create_symlinks "train" "/logs/13.err" "/logs/13.out" false
    Symlinks.linked_once =
    (Ret tt,
     [("notes.txt", Symlinks.Other);
      ("train.err", Symlinks.Symlink "/logs/13.err");
      ("train.out", Symlinks.Symlink "/logs/13.out")]).
Proof.
  apply (create_symlinks_replaces_links
           "train" "/logs/13.err" "/logs/13.out" Symlinks.linked_once).
  - reflexivity.
  - discriminate.
  - discriminate.
Defined.

(** A regular file train.err: the call fails and the old train.out link
    is gone. *)
Lemma create_symlinks_blocked_by_file_witness :
  Symlinks.create_symlinks "train" "/logs/13.err" "/logs/13.out" false
    Symlinks.blocked =
    (Raise (Symlinks.file_exists "train.err"),
     [("train.err", Symlinks.Other)]).
Proof.
  apply (create_symlinks_blocked_by_file
           "train" "/logs/13.err" "/logs/13.out" Symlinks.blocked).
  - reflexivity.
  - reflexivity.
Defined.

